(** * Lipsync blending, error handling and adaptive optimisation

    A shallow embedding of the lipsync utilities of the avatar front end:
    - the morph-target blending simulation and the viseme selection of the
      blending test ([src/unnamed/part_001]);
    - [src/src/utils/lipsyncErrorHandler.js];
    - [src/src/utils/lipsyncOptimization.js].

    JavaScript numbers are modelled as exact rationals together with [NaN];
    the floating-point rounding of the source is not modelled, except in
    [BlendingF64], which follows the decay write in double precision. *)

From Stdlib Require Import QArith Qminmax Lqa List String Ascii Bool Lia.
From Stdlib Require Import Sorted Permutation PeanoNat.
From Stdlib Require Floats.
Import ListNotations.
Open Scope string_scope.
Open Scope list_scope.

(* ------------------------------------------------------------------ *)
(** ** JavaScript numbers *)

Inductive num : Type :=
| Fin (q : Q)
| NaN.

Definition Qltb (a b : Q) : bool := negb (Qle_bool b a).

(** [a + b], [a - b], [a * b]: NaN is absorbing. *)
Definition js_add (a b : num) : num :=
  match a, b with Fin x, Fin y => Fin (x + y) | _, _ => NaN end.
Definition js_sub (a b : num) : num :=
  match a, b with Fin x, Fin y => Fin (x - y) | _, _ => NaN end.
Definition js_mul (a b : num) : num :=
  match a, b with Fin x, Fin y => Fin (x * y) | _, _ => NaN end.

(** [a > b] and [a < b]: false as soon as one side is NaN. *)
Definition js_gt (a b : num) : bool :=
  match a, b with Fin x, Fin y => Qltb y x | _, _ => false end.
Definition js_lt (a b : num) : bool := js_gt b a.
Definition js_ge (a b : num) : bool :=
  match a, b with Fin x, Fin y => Qle_bool y x | _, _ => false end.

(** [Math.min] and [Math.max]: NaN if either argument is NaN. *)
Definition Math_min (a b : num) : num :=
  match a, b with Fin x, Fin y => Fin (if Qle_bool x y then x else y) | _, _ => NaN end.
Definition Math_max (a b : num) : num :=
  match a, b with Fin x, Fin y => Fin (if Qle_bool x y then y else x) | _, _ => NaN end.

(** Association-list lookup, the model of reading an own property. *)
Fixpoint assoc {A} (k : string) (l : list (string * A)) : option A :=
  match l with
  | [] => None
  | (k', v) :: l' => if String.eqb k k' then Some v else assoc k l'
  end.

(** Assignment to an existing own property: the entry keeps its place. *)
Fixpoint set_prop {A} (k : string) (v : A) (l : list (string * A)) : list (string * A) :=
  match l with
  | [] => []
  | (k', v') :: l' => if String.eqb k k' then (k', v) :: l' else (k', v') :: set_prop k v l'
  end.

(* ------------------------------------------------------------------ *)
(** ** Viseme selection (part_001, lines 562-576)

<<
const activeVisemes = Object.entries(visemeScores)
  .filter(([_, value]) => value > MIN_THRESHOLD)
  .sort(([_, a], [__, b]) => b - a)
  .slice(0, MAX_BLEND_VISEMES);
>>
    [Array.prototype.sort] is stable; it is modelled by a stable insertion
    sort driven by the comparator's sign. *)

Module Selection.

Definition entry := (string * num)%type.

(** The comparator [([_, a], [__, b]) => b - a]. *)
Definition compare_entries (x y : entry) : num := js_sub (snd y) (snd x).

(** Insert [x] after every element that does not compare after it. *)
Fixpoint insert (x : entry) (l : list entry) : list entry :=
  match l with
  | [] => [x]
  | y :: ys => if js_gt (compare_entries y x) (Fin 0) then x :: y :: ys
               else y :: insert x ys
  end.

Definition sort (l : list entry) : list entry :=
  fold_left (fun acc x => insert x acc) l [].

Definition activeVisemes (minThreshold : num) (maxBlend : nat)
    (visemeScores : list entry) : list entry :=
  firstn maxBlend (sort (filter (fun e => js_gt (snd e) minThreshold) visemeScores)).

(** Descending order of scores, for entries whose scores are numbers. *)
Definition score_desc (x y : entry) : Prop :=
  match snd x, snd y with Fin a, Fin b => (b <= a)%Q | _, _ => False end.

Definition is_fin (x : entry) : Prop := exists q, snd x = Fin q.

Definition testScores : list entry :=
  [("viseme_AA", Fin (8#10)); ("viseme_E", Fin (4#10));
   ("viseme_I", Fin (2#10)); ("viseme_O", Fin (5#100))].

End Selection.

(* ------------------------------------------------------------------ *)
(** ** Morph-target blending (part_001, lines 21-169)

    The morph-target store is the object [morphTargets], an association
    list from target name to intensity; [applyMorphTarget] writes only to a
    name already present in it. *)

Module Blending.

Definition store := list (string * num).

(** [LIPSYNC_SMOOTHING] *)
Definition ACTIVE_LERP_SPEED : num := Fin (3#10).
Definition NEUTRAL_LERP_SPEED : num := Fin (2#10).
Definition MIN_THRESHOLD : num := Fin (2#100).
Definition MAX_BLEND_VISEMES : nat := 3.

Definition facialExpressions : list (string * list (string * num)) :=
  [("default", []);
   ("smile", [("browInnerUp", Fin (17#100)); ("eyeSquintLeft", Fin (4#10));
              ("eyeSquintRight", Fin (44#100)); ("mouthSmileLeft", Fin (61#100));
              ("mouthSmileRight", Fin (41#100))]);
   ("sad", [("mouthFrownLeft", Fin 1); ("mouthFrownRight", Fin 1);
            ("browInnerUp", Fin (452#1000)); ("eyeSquintLeft", Fin (72#100));
            ("eyeSquintRight", Fin (75#100))]);
   ("surprised", [("eyeWideLeft", Fin (5#10)); ("eyeWideRight", Fin (5#10));
                  ("jawOpen", Fin (351#1000)); ("mouthFunnel", Fin 1);
                  ("browInnerUp", Fin 1)])].

Definition visemeMapping : list (string * string) :=
  [("viseme_sil", "viseme_sil"); ("viseme_PP", "viseme_PP");
   ("viseme_FF", "viseme_FF"); ("viseme_AA", "viseme_AA");
   ("viseme_E", "viseme_E"); ("viseme_I", "viseme_I");
   ("viseme_O", "viseme_O"); ("viseme_U", "viseme_U");
   ("A", "viseme_AA"); ("E", "viseme_E"); ("I", "viseme_I");
   ("O", "viseme_O"); ("U", "viseme_U")].

Definition initialMorphTargets : store :=
  map (fun k => (k, Fin 0))
    ["viseme_sil"; "viseme_PP"; "viseme_FF"; "viseme_AA"; "viseme_E";
     "viseme_I"; "viseme_O"; "viseme_U";
     "browInnerUp"; "eyeSquintLeft"; "eyeSquintRight"; "mouthSmileLeft";
     "mouthSmileRight"; "mouthFrownLeft"; "mouthFrownRight"; "eyeWideLeft";
     "eyeWideRight"; "jawOpen"; "mouthFunnel";
     "eyeBlinkLeft"; "eyeBlinkRight"].

(** [Math.max(0, Math.min(value, 1))] *)
Definition clamp01 (value : num) : num := Math_max (Fin 0) (Math_min value (Fin 1)).

(** [applyMorphTarget(target, value, lerpSpeed)] on a target name that is
    an own property of [morphTargets], or no property at all. The test
    [morphTargets[target] !== undefined] also passes for a name inherited
    from [Object.prototype] ([toString], [constructor], ...), where the
    source then stores a string under a new own property; such names are
    outside this model, and statements over arbitrary target names exclude
    them. *)
Definition applyMorphTarget (morphTargets : store) (target : string)
    (value lerpSpeed : num) : store :=
  match assoc target morphTargets with
  | Some currentValue =>
      let clampedValue := clamp01 value in
      set_prop target
        (js_add currentValue (js_mul (js_sub clampedValue currentValue) lerpSpeed))
        morphTargets
  | None => morphTargets
  end.

(** The test's [clampValue], which maps NaN to 0. *)
Definition clampValue (value : num) : num :=
  match value with NaN => Fin 0 | _ => clamp01 value end.

Definition isVisemeTarget (target : string) : bool :=
  existsb (String.eqb target) (map snd visemeMapping).

(** A non-empty string is truthy. *)
Definition truthy_string (s : string) : bool := negb (String.eqb s "").

(** [simulateFrameUpdate(mockSystem, facialExpression, lipsyncVisemes,
    hasActiveLipsync)]; [None] is a missing (falsy) argument. *)
Definition simulateFrameUpdate (morphTargets : store)
    (facialExpression : option string)
    (lipsyncVisemes : option (list (string * num)))
    (hasActiveLipsync : bool) : store :=
  (* Apply facial expressions *)
  let st1 :=
    match facialExpression with
    | Some name =>
        match assoc name facialExpressions with
        | Some mapping =>
            fold_left (fun st '(key, value) =>
              if String.eqb key "eyeBlinkLeft" || String.eqb key "eyeBlinkRight" then st
              else if isVisemeTarget key then
                let blendFactor := if hasActiveLipsync then Fin (3#10) else Fin 1 in
                applyMorphTarget st key (js_mul value blendFactor) (Fin (1#10))
              else applyMorphTarget st key value (Fin (1#10)))
              mapping morphTargets
        | None => morphTargets
        end
    | None => morphTargets
    end in
  (* Apply lipsync visemes *)
  let st2 :=
    match hasActiveLipsync, lipsyncVisemes with
    | true, Some visemes =>
        fold_left (fun st '(viseme, value) =>
          match assoc viseme visemeMapping with
          | Some morphTarget =>
              if truthy_string morphTarget && js_gt value MIN_THRESHOLD
              then applyMorphTarget st morphTarget value ACTIVE_LERP_SPEED
              else st
          | None => st
          end) visemes st1
    | _, _ => st1
    end in
  (* Return unused viseme targets to neutral *)
  let allVisemeTargets := filter truthy_string (map snd visemeMapping) in
  let activeVisemes :=
    match lipsyncVisemes with
    | Some visemes =>
        filter truthy_string
          (flat_map (fun '(v, _) => match assoc v visemeMapping with
                                    | Some t => [t] | None => [] end) visemes)
    | None => []
    end in
  fold_left (fun st target =>
    if existsb (String.eqb target) activeVisemes then st
    else applyMorphTarget st target (Fin 0) NEUTRAL_LERP_SPEED)
    allVisemeTargets st2.

(** Every stored intensity is a number in [0,1]. *)
Definition unit_val (v : num) : Prop := exists q, v = Fin q /\ (0 <= q <= 1)%Q.
Definition unit_store (st : store) : Prop := Forall (fun kv => unit_val (snd kv)) st.

(** The decay of one unselected viseme target, iterated [n] times. *)
Definition decayStep (target : string) (st : store) : store :=
  applyMorphTarget st target (Fin 0) NEUTRAL_LERP_SPEED.

Definition decay_iter (target : string) (n : nat) (st : store) : store :=
  Nat.iter n (decayStep target) st.

Fixpoint qpow (q : Q) (n : nat) : Q :=
  match n with O => 1 | S n' => q * qpow q n' end.

End Blending.

(* ------------------------------------------------------------------ *)
(** ** Error handling ([src/src/utils/lipsyncErrorHandler.js]) *)

Module ErrorHandler.

(** [LIPSYNC_ERROR_TYPES] *)
Inductive errorType : Type :=
| INITIALIZATION_FAILED
| AUDIO_CONNECTION_FAILED
| PROCESSING_ERROR
| BROWSER_UNSUPPORTED
| CONTEXT_ERROR
| UNKNOWN_ERROR.

Definition LIPSYNC_ERROR_TYPES (t : errorType) : string :=
  match t with
  | INITIALIZATION_FAILED => "initialization_failed"
  | AUDIO_CONNECTION_FAILED => "audio_connection_failed"
  | PROCESSING_ERROR => "processing_error"
  | BROWSER_UNSUPPORTED => "browser_unsupported"
  | CONTEXT_ERROR => "context_error"
  | UNKNOWN_ERROR => "unknown_error"
  end.

(** [String.prototype.toLowerCase] on ASCII text. *)
Definition lower_ascii (c : ascii) : ascii :=
  let n := nat_of_ascii c in
  if Nat.leb 65 n && Nat.leb n 90 then ascii_of_nat (n + 32) else c.

Fixpoint toLowerCase (s : string) : string :=
  match s with
  | EmptyString => EmptyString
  | String c s' => String (lower_ascii c) (toLowerCase s')
  end.

(** [s.includes(pat)] *)
Fixpoint includes (s pat : string) : bool :=
  String.prefix pat s ||
  match s with EmptyString => false | String _ s' => includes s' pat end.

(** An error value: its [message] and [name] properties, each a string or
    absent. A falsy [error] (null, undefined) is [None]. *)
Record jsError := { message : option string; name : option string }.

(** [error.message?.toLowerCase() || ''] *)
Definition lowered (p : option string) : string :=
  match p with Some m => toLowerCase m | None => "" end.

Definition categorizeError (error : option jsError) : errorType :=
  match error with
  | None => UNKNOWN_ERROR
  | Some e =>
      let message := lowered (message e) in
      let name := lowered (name e) in
      if includes name "invalidstate" || includes message "context" then CONTEXT_ERROR
      else if includes message "audio" || includes message "connect" then AUDIO_CONNECTION_FAILED
      else if includes message "process" || includes message "analyze" then PROCESSING_ERROR
      else if includes message "not supported" || includes message "unavailable"
      then BROWSER_UNSUPPORTED
      else if includes message "init" || includes message "constructor"
      then INITIALIZATION_FAILED
      else UNKNOWN_ERROR
  end.

(** A recovery strategy; [fallbackConfig] is [(fftSize, historySize)]. *)
Record strategy := {
  delay : nat;
  maxRetries : nat;
  fallbackConfig : option (nat * nat);
  description : string }.

Definition unknownStrategy : strategy :=
  {| delay := 3000; maxRetries := 1; fallbackConfig := Some (512%nat, 4%nat);
     description := "Generic recovery attempt" |}.

Definition strategies : list (string * strategy) :=
  [(LIPSYNC_ERROR_TYPES INITIALIZATION_FAILED,
    {| delay := 2000; maxRetries := 3; fallbackConfig := Some (512%nat, 4%nat);
       description := "Retry with reduced settings" |});
   (LIPSYNC_ERROR_TYPES AUDIO_CONNECTION_FAILED,
    {| delay := 1000; maxRetries := 2; fallbackConfig := None;
       description := "Retry audio connection" |});
   (LIPSYNC_ERROR_TYPES PROCESSING_ERROR,
    {| delay := 500; maxRetries := 1; fallbackConfig := None;
       description := "Skip current frame and continue" |});
   (LIPSYNC_ERROR_TYPES CONTEXT_ERROR,
    {| delay := 5000; maxRetries := 2; fallbackConfig := Some (256%nat, 2%nat);
       description := "Reinitialize with minimal settings" |});
   (LIPSYNC_ERROR_TYPES BROWSER_UNSUPPORTED,
    {| delay := 0; maxRetries := 0; fallbackConfig := None;
       description := "Use fallback animation permanently" |});
   (LIPSYNC_ERROR_TYPES UNKNOWN_ERROR, unknownStrategy)].

(** [strategies[errorType] || strategies[UNKNOWN_ERROR]] *)
Definition getRecoveryStrategy (errorType : string) : strategy :=
  match assoc errorType strategies with
  | Some st => st
  | None => match assoc (LIPSYNC_ERROR_TYPES UNKNOWN_ERROR) strategies with
            | Some st => st
            | None => unknownStrategy
            end
  end.

(** *** [generateFallbackLipsync]

    [Math.sin] is a parameter of the model. An audio element is its
    [paused], [ended], [currentTime] and [duration] properties ([duration]
    is NaN while unknown); a missing element is [None], a missing
    [intensity] argument is [None] (default 0.5). *)
Record audioElement := {
  paused : bool;
  ended : bool;
  currentTime : Q;
  duration : num }.

(** [!x] for a number: 0 and NaN are falsy. *)
Definition falsy_num (x : num) : bool :=
  match x with NaN => true | Fin q => Qeq_bool q 0 end.

Section Fallback.
Variable Math_sin : Q -> Q.

Definition generateFallbackLipsync (audio : option audioElement) (intensity : option Q)
    : list (string * num) :=
  let intensity := match intensity with Some i => i | None => 1#2 end in
  match audio with
  | None => []
  | Some a =>
      if paused a || ended a then []
      else
        let currentTime := currentTime a in
        let duration := duration a in
        if falsy_num duration || js_ge (Fin currentTime) duration then []
        else
          (* Create simple oscillating mouth movement *)
          let timeBasedIntensity :=
            js_add (js_mul (Fin (Math_sin (currentTime * 8))) (Fin intensity)) (Fin intensity) in
          let clampedIntensity := Math_max (Fin 0) (Math_min timeBasedIntensity (Fin 1)) in
          [("viseme_AA", js_mul clampedIntensity (Fin (7#10)));
           ("viseme_E", js_mul clampedIntensity (Fin (3#10)));
           ("viseme_I", js_mul clampedIntensity (Fin (2#10)));
           ("viseme_O", js_mul clampedIntensity (Fin (4#10)))]
  end.
End Fallback.

(** *** [detectBrowserSupport]

    The probe mutates the object [support] in place and may throw; it is
    run in a state and exception monad over [support], where [None] is a
    thrown exception and the state keeps the writes done before it. *)
Record support := {
  isSupported : bool;
  missingFeatures : list string;
  warnings : list string }.

(** What [window] offers: the two audio-context constructors, the
    MediaStream constructor, and whether instantiating an AudioContext,
    creating an analyser on it or closing it throws. *)
Record windowEnv := {
  AudioContext : bool;
  webkitAudioContext : bool;
  MediaStream : bool;
  analyserProbeThrows : bool }.

(** The environment: [window] ([None]: not defined, reading it throws) and
    [navigator.userAgent] ([None]: [navigator] or its [userAgent] is
    missing, so [.toLowerCase()] throws). *)
Record env := {
  window : option windowEnv;
  userAgent : option string }.

Definition M (A : Type) : Type := support -> support * option A.

Definition ret {A} (a : A) : M A := fun s => (s, Some a).
Definition bind {A B} (m : M A) (f : A -> M B) : M B :=
  fun s => match m s with
           | (s', Some a) => f a s'
           | (s', None) => (s', None)
           end.
Definition throw {A} : M A := fun s => (s, None).
Definition try_catch {A} (m : M A) (handler : M A) : M A :=
  fun s => match m s with
           | (s', None) => handler s'
           | r => r
           end.
Definition modify (f : support -> support) : M unit := fun s => (f s, Some tt).

Notation "x <- m ;; k" := (bind m (fun x => k)) (at level 61, m at next level, right associativity).
Notation "m ;;; k" := (bind m (fun _ => k)) (at level 61, right associativity).

Definition when (b : bool) (m : M unit) : M unit := if b then m else ret tt.

Definition set_unsupported : M unit :=
  modify (fun s => {| isSupported := false; missingFeatures := missingFeatures s;
                      warnings := warnings s |}).
Definition push_missing (f : string) : M unit :=
  modify (fun s => {| isSupported := isSupported s; missingFeatures := missingFeatures s ++ [f];
                      warnings := warnings s |}).
Definition push_warning (w : string) : M unit :=
  modify (fun s => {| isSupported := isSupported s; missingFeatures := missingFeatures s;
                      warnings := warnings s ++ [w] |}).

(** [BROWSER_REQUIREMENTS] *)
Definition webAudioAPI : string := "Web Audio API".
Definition mediaStream : string := "MediaStream API".

(** [/android|iphone|ipad|ipod|blackberry|iemobile|opera mini/i.test(ua)] *)
Definition mobile_test (ua : string) : bool :=
  existsb (includes (toLowerCase ua))
    ["android"; "iphone"; "ipad"; "ipod"; "blackberry"; "iemobile"; "opera mini"].

Definition is_digit (c : ascii) : bool :=
  Nat.leb 48 (nat_of_ascii c) && Nat.leb (nat_of_ascii c) 57.

(** The maximal run of digits at the start of a string. *)
Fixpoint leading_digits (s : string) : string :=
  match s with
  | String c s' => if is_digit c then String c (leading_digits s') else EmptyString
  | EmptyString => EmptyString
  end.

(** [parseInt] of a string of decimal digits. *)
Definition parseInt_digits (s : string) : nat :=
  fold_left (fun acc c => acc * 10 + (nat_of_ascii c - 48))%nat (list_ascii_of_string s) 0%nat.

(** [ua.match(/firefox\/(\d+)/)]: the first group of the leftmost match. *)
Fixpoint firefox_match (ua : string) : option string :=
  let here :=
    if String.prefix "firefox/" ua then
      match leading_digits (substring 8 (String.length ua - 8) ua) with
      | EmptyString => None
      | ds => Some ds
      end
    else None in
  match here with
  | Some ds => Some ds
  | None => match ua with EmptyString => None | String _ ua' => firefox_match ua' end
  end.

Definition get_window (e : env) : M windowEnv :=
  match window e with Some w => ret w | None => throw end.
Definition get_userAgent (e : env) : M string :=
  match userAgent e with Some ua => ret (toLowerCase ua) | None => throw end.

(** The checks of the audio primitives. *)
Definition audio_checks (w : windowEnv) : M unit :=
  let AC := AudioContext w || webkitAudioContext w in
  (* Check Web Audio API *)
  when (negb AC) (set_unsupported ;;; push_missing webAudioAPI) ;;;
  (* Check MediaStream API *)
  when (negb (MediaStream w)) (set_unsupported ;;; push_missing mediaStream) ;;;
  (* Check AnalyserNode *)
  when AC (try_catch (if analyserProbeThrows w then throw else ret tt)
                     (push_warning "AnalyserNode creation failed")).

(** Browser-specific checks on the lower-cased user agent. *)
Definition ua_checks (ua : string) : M unit :=
  when (includes ua "safari" && negb (includes ua "chrome"))
       (push_warning "Safari may have limited Web Audio API support") ;;;
  when (mobile_test ua)
       (push_warning "Mobile browsers may have performance limitations") ;;;
  when (includes ua "firefox")
       (match firefox_match ua with
        | Some v => when (Nat.ltb (parseInt_digits v) 60)
                      (push_warning "Firefox version may be too old for optimal support")
        | None => ret tt
        end).

(** The body of the [try] block. *)
Definition detect_body (e : env) : M unit :=
  w <- get_window e ;;
  audio_checks w ;;;
  ua <- get_userAgent e ;;
  ua_checks ua.

Definition initial_support : support :=
  {| isSupported := true; missingFeatures := []; warnings := [] |}.

Definition detectBrowserSupport_M (e : env) : M support :=
  try_catch (detect_body e) (set_unsupported ;;; push_missing "Browser detection failed") ;;;
  (fun s => (s, Some s)).

(** The outcome of [detectBrowserSupport()]: [Some] result when it returns,
    [None] when it throws. *)
Definition detectBrowserSupport (e : env) : option support :=
  snd (detectBrowserSupport_M e initial_support).

(** Whether the probing itself raises, from a fresh [support]. *)
Definition probe_raises (e : env) : bool :=
  match snd (detect_body e initial_support) with None => true | Some _ => false end.

(** Whether the audio-context or the media-stream primitive is missing
    (an undefined [window] offers neither). *)
Definition primitive_missing (e : env) : bool :=
  match window e with
  | Some w => negb (AudioContext w || webkitAudioContext w) || negb (MediaStream w)
  | None => true
  end.

(** Following the spec: the classification rules in their order, the first
    matching rule giving the kind; tested on the lower-cased name and
    message. *)
Definition classification_rules : list ((string -> string -> bool) * errorType) :=
  [(fun name msg => includes name "invalidstate" || includes msg "context", CONTEXT_ERROR);
   (fun _ msg => includes msg "audio" || includes msg "connect", AUDIO_CONNECTION_FAILED);
   (fun _ msg => includes msg "process" || includes msg "analyze", PROCESSING_ERROR);
   (fun _ msg => includes msg "not supported" || includes msg "unavailable", BROWSER_UNSUPPORTED);
   (fun _ msg => includes msg "init" || includes msg "constructor", INITIALIZATION_FAILED)].

Definition classify_first_match (error : option jsError) : errorType :=
  match error with
  | None => UNKNOWN_ERROR
  | Some e =>
      match find (fun r => fst r (lowered (name e)) (lowered (message e))) classification_rules with
      | Some r => snd r
      | None => UNKNOWN_ERROR
      end
  end.

(** Following the spec's table: [(delay, maxRetries)] per kind. *)
Definition recovery_table (t : errorType) : nat * nat :=
  match t with
  | INITIALIZATION_FAILED => (2000, 3)
  | AUDIO_CONNECTION_FAILED => (1000, 2)
  | PROCESSING_ERROR => (500, 1)
  | CONTEXT_ERROR => (5000, 2)
  | BROWSER_UNSUPPORTED => (0, 0)
  | UNKNOWN_ERROR => (3000, 1)
  end%nat.

(** *** [LipsyncPerformanceMonitor]

    Times are inputs: [performance.now()] and [Date.now()] read at the call. *)
Record lastErrorRec := {
  le_message : option string;
  le_timestamp : Q;
  le_type : errorType }.

Record metrics := {
  processingTime : list Q;
  errorCount : nat;
  successCount : nat;
  lastError : option lastErrorRec }.

Definition monitor_init : metrics :=
  {| processingTime := []; errorCount := 0; successCount := 0; lastError := None |}.

Definition endTiming (m : metrics) (startTime now : Q) : metrics :=
  let duration := now - startTime in
  let pt := processingTime m ++ [duration] in
  (* Keep only last 100 measurements *)
  let pt := if Nat.ltb 100 (List.length pt) then tl pt else pt in
  {| processingTime := pt; errorCount := errorCount m; successCount := successCount m;
     lastError := lastError m |}.

Definition recordSuccess (m : metrics) : metrics :=
  {| processingTime := processingTime m; errorCount := errorCount m;
     successCount := S (successCount m); lastError := lastError m |}.

Definition recordError (m : metrics) (error : jsError) (now : Q) : metrics :=
  {| processingTime := processingTime m; errorCount := S (errorCount m);
     successCount := successCount m;
     lastError := Some {| le_message := message error; le_timestamp := now;
                          le_type := categorizeError (Some error) |} |}.

(** [errorCount / (errorCount + successCount)] on counts: 0/0 is NaN, the
    only division by zero two counts can produce. *)
Definition count_div (e s : nat) : num :=
  if Nat.eqb (e + s) 0 then NaN else Fin (inject_Z (Z.of_nat e) / inject_Z (Z.of_nat (e + s))).

(** [x || 0] for a number. *)
Definition or_zero (x : num) : num := if falsy_num x then Fin 0 else x.

Record monitorStats := {
  ms_errorRate : num;
  ms_totalErrors : nat;
  ms_totalSuccesses : nat;
  ms_lastError : option lastErrorRec }.

(** [getStats()]; [averageProcessingTime] is a formatted string and is not
    modelled. *)
Definition getStats (m : metrics) : monitorStats :=
  {| ms_errorRate := or_zero (count_div (errorCount m) (successCount m));
     ms_totalErrors := errorCount m; ms_totalSuccesses := successCount m;
     ms_lastError := lastError m |}.

Inductive monitorOp :=
| MStartTiming
| MEndTiming (startTime now : Q)
| MRecordSuccess
| MRecordError (error : jsError) (now : Q)
| MGetStats
| MReset.

(** [reset()] sets [this.metrics] to the fresh metrics. *)
Definition monitor_step (m : metrics) (op : monitorOp) : metrics :=
  match op with
  | MStartTiming | MGetStats => m
  | MReset => monitor_init
  | MEndTiming st now => endTiming m st now
  | MRecordSuccess => recordSuccess m
  | MRecordError e now => recordError m e now
  end.

Definition monitor_run (m : metrics) (ops : list monitorOp) : metrics :=
  fold_left monitor_step ops m.

End ErrorHandler.

(* ------------------------------------------------------------------ *)
(** ** Performance optimisation ([src/src/utils/lipsyncOptimization.js]) *)

Module Optimization.

(** *** [LipsyncPerformanceOptimizer]; memory probing is not modelled. *)
Record measurement := {
  operation : string;
  m_duration : Q;
  m_timestamp : Q;
  m_frameCount : nat }.

Record optimizer := {
  measurements : list measurement;
  o_errorCount : nat;
  o_successCount : nat;
  o_startTime : Q;
  o_frameCount : nat }.

Definition optimizer_init (now : Q) : optimizer :=
  {| measurements := []; o_errorCount := 0; o_successCount := 0;
     o_startTime := now; o_frameCount := 0 |}.

Definition o_endTiming (o : optimizer) (startTime endTime : Q) (op : string) : optimizer :=
  {| measurements := measurements o ++
       [{| operation := op; m_duration := endTime - startTime; m_timestamp := endTime;
           m_frameCount := o_frameCount o |}];
     o_errorCount := o_errorCount o; o_successCount := o_successCount o;
     o_startTime := o_startTime o; o_frameCount := S (o_frameCount o) |}.

Definition o_recordSuccess (o : optimizer) : optimizer :=
  {| measurements := measurements o; o_errorCount := o_errorCount o;
     o_successCount := S (o_successCount o); o_startTime := o_startTime o;
     o_frameCount := o_frameCount o |}.

Definition o_recordError (o : optimizer) : optimizer :=
  {| measurements := measurements o; o_errorCount := S (o_errorCount o);
     o_successCount := o_successCount o; o_startTime := o_startTime o;
     o_frameCount := o_frameCount o |}.

(** [errorRate] of [getStats()]: [errorCount / (errorCount + successCount)]. *)
Definition o_errorRate (o : optimizer) : num :=
  ErrorHandler.count_div (o_errorCount o) (o_successCount o).

Inductive optimizerOp :=
| OStartTiming
| OEndTiming (startTime endTime : Q) (op : string)
| ORecordSuccess
| ORecordError
| OGetStats
| OReset (now : Q).

(** [reset()] empties the measurements, zeroes the counters and restarts
    the clock at [performance.now()]; [memoryBaseline] is not modelled. *)
Definition optimizer_step (o : optimizer) (op : optimizerOp) : optimizer :=
  match op with
  | OStartTiming | OGetStats => o
  | OReset now => optimizer_init now
  | OEndTiming st en label => o_endTiming o st en label
  | ORecordSuccess => o_recordSuccess o
  | ORecordError => o_recordError o
  end.

Definition optimizer_run (o : optimizer) (ops : list optimizerOp) : optimizer :=
  fold_left optimizer_step ops o.

(** *** [AdaptivePerformanceOptimizer] *)
Record smoothingConfig := {
  ACTIVE_LERP_SPEED : Q;
  NEUTRAL_LERP_SPEED : Q;
  MIN_THRESHOLD : Q;
  MAX_BLEND_VISEMES : Q;
  EXPRESSION_BLEND_FACTOR : Q }.

(** The configuration fields the optimiser reads and writes. *)
Record config := {
  fftSize : Q;
  historySize : Q;
  smoothing : smoothingConfig }.

(** The stats fields [shouldAdapt] reads. *)
Record perfStats := {
  averageProcessingTime : num;
  averageFPS : num }.

Record historyEntry := {
  h_timestamp : Q;
  h_stats : perfStats;
  h_config : config }.

Record adaptive := {
  performanceHistory : list historyEntry;
  currentConfig : config;
  adaptationCount : nat }.

(** The configuration fields of [OPTIMAL_LIPSYNC_CONFIG]. *)
Definition OPTIMAL_LIPSYNC_CONFIG : config :=
  {| fftSize := 1024; historySize := 8;
     smoothing := {| ACTIVE_LERP_SPEED := 3#10; NEUTRAL_LERP_SPEED := 2#10;
                     MIN_THRESHOLD := 2#100; MAX_BLEND_VISEMES := 3;
                     EXPRESSION_BLEND_FACTOR := 3#10 |} |}.

Definition maxAdaptations : nat := 5.
Definition MAX_PROCESSING_TIME : Q := 1.
Definition TARGET_FPS : Q := 60.

Definition adaptive_init (cfg : config) : adaptive :=
  {| performanceHistory := []; currentConfig := cfg; adaptationCount := 0 |}.

Definition analyzePerformance (a : adaptive) (stats : perfStats) (now : Q) : adaptive :=
  let h := performanceHistory a ++
             [{| h_timestamp := now; h_stats := stats; h_config := currentConfig a |}] in
  (* Keep only recent history (last 10 measurements) *)
  let h := if Nat.ltb 10 (List.length h) then tl h else h in
  {| performanceHistory := h; currentConfig := currentConfig a;
     adaptationCount := adaptationCount a |}.

(** [x / n] for a count [n]. *)
Definition js_div_count (x : num) (n : nat) : num :=
  match x with Fin q => Fin (q / inject_Z (Z.of_nat n)) | NaN => NaN end.

(** [slice(-3)] *)
Definition last3 {A} (l : list A) : list A := skipn (List.length l - 3) l.

Definition recentAverage (f : perfStats -> num) (recent : list historyEntry) : num :=
  js_div_count (fold_left (fun sum entry => js_add sum (f (h_stats entry))) recent (Fin 0))
               (List.length recent).

Definition shouldAdapt (a : adaptive) : bool :=
  if Nat.leb maxAdaptations (adaptationCount a) then false
  else if Nat.ltb (List.length (performanceHistory a)) 3 then false
  else
    let recentStats := last3 (performanceHistory a) in
    js_gt (recentAverage averageProcessingTime recentStats) (Fin MAX_PROCESSING_TIME) ||
    js_lt (recentAverage averageFPS recentStats) (Fin (TARGET_FPS * (8#10))).

Definition Qmax' (a b : Q) : Q := if Qle_bool a b then b else a.

(** One rung of the degradation ladder, for the new value of the counter. *)
Definition degrade (count : nat) (c : config) : config :=
  let sm := smoothing c in
  match count with
  | 1%nat => {| fftSize := fftSize c; historySize := Qmax' 4 (historySize c - 2); smoothing := sm |}
  | 2%nat => {| fftSize := Qmax' 512 (fftSize c / 2); historySize := historySize c; smoothing := sm |}
  | 3%nat => {| fftSize := fftSize c; historySize := historySize c;
            smoothing := {| ACTIVE_LERP_SPEED := ACTIVE_LERP_SPEED sm;
                            NEUTRAL_LERP_SPEED := NEUTRAL_LERP_SPEED sm;
                            MIN_THRESHOLD := MIN_THRESHOLD sm * (3#2);
                            MAX_BLEND_VISEMES := Qmax' 1 (MAX_BLEND_VISEMES sm - 1);
                            EXPRESSION_BLEND_FACTOR := EXPRESSION_BLEND_FACTOR sm |} |}
  | 4%nat => {| fftSize := fftSize c; historySize := historySize c;
            smoothing := {| ACTIVE_LERP_SPEED := ACTIVE_LERP_SPEED sm * (8#10);
                            NEUTRAL_LERP_SPEED := NEUTRAL_LERP_SPEED sm * (8#10);
                            MIN_THRESHOLD := MIN_THRESHOLD sm;
                            MAX_BLEND_VISEMES := MAX_BLEND_VISEMES sm;
                            EXPRESSION_BLEND_FACTOR := EXPRESSION_BLEND_FACTOR sm |} |}
  | _ => {| fftSize := 256; historySize := 2;
            smoothing := {| ACTIVE_LERP_SPEED := 1#10; NEUTRAL_LERP_SPEED := 1#10;
                            MIN_THRESHOLD := 1#10; MAX_BLEND_VISEMES := 1;
                            EXPRESSION_BLEND_FACTOR := 1#10 |} |}
  end.

(** [adaptConfiguration()]: the new state and the returned configuration. *)
Definition adaptConfiguration (a : adaptive) : adaptive * config :=
  if negb (shouldAdapt a) then (a, currentConfig a)
  else
    let count := S (adaptationCount a) in
    let cfg := degrade count (currentConfig a) in
    ({| performanceHistory := performanceHistory a; currentConfig := cfg;
        adaptationCount := count |}, cfg).

(** The calls [analyzePerformance] and [adaptConfiguration]; [reset()],
    which reloads the configuration from the shared and possibly mutated
    [OPTIMAL_LIPSYNC_CONFIG], is modelled in [SharedConfig]. *)
Inductive adaptiveOp :=
| AnalyzePerformance (stats : perfStats) (now : Q)
| AdaptConfiguration.

Definition adaptive_step (a : adaptive) (op : adaptiveOp) : adaptive :=
  match op with
  | AnalyzePerformance stats now => analyzePerformance a stats now
  | AdaptConfiguration => fst (adaptConfiguration a)
  end.

Definition adaptive_run (a : adaptive) (ops : list adaptiveOp) : adaptive :=
  fold_left adaptive_step ops a.

End Optimization.

(* ------------------------------------------------------------------ *)
(** ** The rest of the morph-target system of the blending test
    (part_001, lines 110-169) *)

Module BlendingMore.
Import Blending.

(** [getMorphTargetValue(target)]: [morphTargets[target] || 0]. *)
Definition getMorphTargetValue (morphTargets : store) (target : string) : num :=
  match assoc target morphTargets with
  | Some v => if ErrorHandler.falsy_num v then Fin 0 else v
  | None => Fin 0
  end.


(** The three phases of [simulateFrameUpdate], each as written there. *)
Definition expr_phase (hasActiveLipsync : bool) (facialExpression : option string)
    (morphTargets : store) : store :=
  match facialExpression with
  | Some name =>
      match assoc name facialExpressions with
      | Some mapping =>
          fold_left (fun st '(key, value) =>
            if String.eqb key "eyeBlinkLeft" || String.eqb key "eyeBlinkRight" then st
            else if isVisemeTarget key then
              let blendFactor := if hasActiveLipsync then Fin (3#10) else Fin 1 in
              applyMorphTarget st key (js_mul value blendFactor) (Fin (1#10))
            else applyMorphTarget st key value (Fin (1#10)))
            mapping morphTargets
      | None => morphTargets
      end
  | None => morphTargets
  end.

Definition lipsync_phase (hasActiveLipsync : bool)
    (lipsyncVisemes : option (list (string * num))) (st1 : store) : store :=
  match hasActiveLipsync, lipsyncVisemes with
  | true, Some visemes =>
      fold_left (fun st '(viseme, value) =>
        match assoc viseme visemeMapping with
        | Some morphTarget =>
            if truthy_string morphTarget && js_gt value MIN_THRESHOLD
            then applyMorphTarget st morphTarget value ACTIVE_LERP_SPEED
            else st
        | None => st
        end) visemes st1
  | _, _ => st1
  end.

Definition active_targets (lipsyncVisemes : option (list (string * num))) : list string :=
  match lipsyncVisemes with
  | Some visemes =>
      filter truthy_string
        (flat_map (fun '(v, _) => match assoc v visemeMapping with
                                  | Some t => [t] | None => [] end) visemes)
  | None => []
  end.

Definition decay_phase (lipsyncVisemes : option (list (string * num))) (st2 : store) : store :=
  fold_left (fun st target =>
    if existsb (String.eqb target) (active_targets lipsyncVisemes) then st
    else applyMorphTarget st target (Fin 0) NEUTRAL_LERP_SPEED)
    (filter truthy_string (map snd visemeMapping)) st2.

(** [simulateFrameUpdate] called once per frame, each frame with its own
    arguments [(facialExpression, lipsyncVisemes, hasActiveLipsync)]. *)
Definition run_frames (morphTargets : store)
    (frames : list (option string * option (list (string * num)) * bool)) : store :=
  fold_left (fun st '(fe, lip, has) => simulateFrameUpdate st fe lip has) frames morphTargets.


End BlendingMore.

(** *** The decay write in double precision

    [applyMorphTarget(target, 0, LIPSYNC_SMOOTHING.NEUTRAL_LERP_SPEED)] on a
    target holding [currentValue], with the binary64 arithmetic of
    JavaScript: [clampedValue] is [Math.max(0, Math.min(0, 1))], that is 0,
    and the literals 0.2 and 0.02 denote the doubles nearest to them, which
    the correctly rounded quotients [2 / 10] and [2 / 100] are. *)

Module BlendingF64.
Import Floats.
Local Open Scope float_scope.





End BlendingF64.

(* ------------------------------------------------------------------ *)
(** ** The rest of [src/src/utils/lipsyncErrorHandler.js] *)

Module ErrorHandlerMore.
Import ErrorHandler.

(** The names an object literal inherits from [Object.prototype]; reading
    [strategies[errorType]] with one of them finds the inherited member,
    which the association-list model of [strategies] leaves out. *)
Definition objectPrototypeNames : list string :=
  ["constructor"; "__defineGetter__"; "__defineSetter__"; "hasOwnProperty";
   "__lookupGetter__"; "__lookupSetter__"; "isPrototypeOf";
   "propertyIsEnumerable"; "toString"; "valueOf"; "__proto__"; "toLocaleString"].

(** [`${x}`] for a property that is a string or absent. *)
Definition template (p : option string) : string :=
  match p with Some s => s | None => "undefined" end.

(** [logLipsyncError(error, context = '')]: the arguments of each
    [console.error] call in order, or [None] when the call throws. The error
    is its [message] and [name] (as for [categorizeError]) and its [stack];
    a falsy [error] is [None]. [new Date().toISOString()] and
    [process.env.NODE_ENV] are inputs. *)
Definition logLipsyncError (NODE_ENV timestamp : string)
    (error : option (jsError * option string)) (context : string)
    : option (list (list string)) :=
  let errorType := categorizeError (option_map fst error) in
  match error with
  | None => None (* [error.message] on null or undefined throws *)
  | Some (e, stack) =>
      let logMessage :=
        String.append "["
          (String.append timestamp
            (String.append "] Lipsync Error ("
              (String.append (LIPSYNC_ERROR_TYPES errorType)
                (String.append "): " (template (message e)))))) in
      let first :=
        if Blending.truthy_string context
        then [String.append logMessage (String.append " | Context: " context)]
        else [logMessage] in
      let trace :=
        match stack with
        | Some s => if String.eqb NODE_ENV "development" && Blending.truthy_string s
                    then [["Stack trace:"; s]] else []
        | None => []
        end in
      Some (first :: trace)
  end.

(** The warnings [ua_checks] adds for a lower-cased user agent. *)
Definition ua_warnings (ua : string) : list string :=
  (if includes ua "safari" && negb (includes ua "chrome")
   then ["Safari may have limited Web Audio API support"] else []) ++
  (if mobile_test ua then ["Mobile browsers may have performance limitations"] else []) ++
  (if includes ua "firefox"
   then match firefox_match ua with
        | Some v => if Nat.ltb (parseInt_digits v) 60
                    then ["Firefox version may be too old for optimal support"] else []
        | None => []
        end
   else []).

(** The last [n] elements of a list: the window a capped FIFO history keeps. *)
Definition lastn {A} (n : nat) (l : list A) : list A := skipn (List.length l - n) l.

(** The durations the [endTiming] calls of a run record, in order. *)
Definition durations (ops : list monitorOp) : list Q :=
  flat_map (fun op => match op with MEndTiming st now => [now - st] | _ => [] end) ops.

Definition is_success (op : monitorOp) : bool :=
  match op with MRecordSuccess => true | _ => false end.
Definition is_error (op : monitorOp) : bool :=
  match op with MRecordError _ _ => true | _ => false end.

(** The error and time of the last [recordError] call of a run. *)
Definition last_error (ops : list monitorOp) : option (jsError * Q) :=
  fold_left (fun acc op => match op with MRecordError e now => Some (e, now) | _ => acc end)
    ops None.

Definition is_reset (op : monitorOp) : bool :=
  match op with MReset => true | _ => false end.

(** The calls of a run after its last [reset()], all of them if it has none. *)
Definition since_reset (ops : list monitorOp) : list monitorOp :=
  fold_left (fun acc op => if is_reset op then [] else acc ++ [op]) ops [].

Definition reset_free (ops : list monitorOp) : bool := forallb (fun op => negb (is_reset op)) ops.

End ErrorHandlerMore.

(* ------------------------------------------------------------------ *)
(** ** The rest of [src/src/utils/lipsyncOptimization.js] *)

Module OptimizationMore.
Import Optimization.

(** *** [BROWSER_OPTIMIZATIONS] and the branches of [detectBrowserAndOptimize]

    [navigator.userAgent] is an input; [detectBrowserAndOptimize] itself,
    which returns [OPTIMAL_LIPSYNC_CONFIG] or a shallow copy of it, is
    modelled in [SharedConfig]. *)
Inductive browser := Chrome | Firefox | Safari | Edge.

Record browserOptimization := {
  bo_fftSize : Q;
  bo_historySize : Q;
  useWebGL : bool;
  enableHardwareAcceleration : bool }.

Definition BROWSER_OPTIMIZATIONS (b : browser) : browserOptimization :=
  match b with
  | Chrome => {| bo_fftSize := 1024; bo_historySize := 8; useWebGL := true;
                 enableHardwareAcceleration := true |}
  | Firefox => {| bo_fftSize := 1024; bo_historySize := 6; useWebGL := true;
                  enableHardwareAcceleration := false |}
  | Safari => {| bo_fftSize := 512; bo_historySize := 4; useWebGL := false;
                 enableHardwareAcceleration := false |}
  | Edge => {| bo_fftSize := 1024; bo_historySize := 8; useWebGL := true;
               enableHardwareAcceleration := true |}
  end.

(** The branch of the [if] chain taken for a user agent. *)
Definition browser_branch (userAgent : string) : option browser :=
  let ua := ErrorHandler.toLowerCase userAgent in
  if ErrorHandler.includes ua "chrome" && negb (ErrorHandler.includes ua "edge") then Some Chrome
  else if ErrorHandler.includes ua "firefox" then Some Firefox
  else if ErrorHandler.includes ua "safari" && negb (ErrorHandler.includes ua "chrome") then Some Safari
  else if ErrorHandler.includes ua "edge" then Some Edge
  else None.

(** *** [LipsyncPerformanceOptimizer]: statistics, health and recommendations

    [performance.now()] and the [usedJSHeapSize] reading of
    [getMemoryUsage()] ([None] without [performance.memory]) are inputs. *)

(** A number as [getStats] can produce it: a quotient by a zero divisor
    is NaN or +Infinity (the divisor [(now - startTime) / 1000] is +0 then). *)
Inductive dnum := DFin (q : Q) | DNaN | DInf.

(** [frameCount / (totalTime / 1000)] *)
Definition fps_div (frameCount : nat) (d : Q) : dnum :=
  if Qeq_bool d 0 then (if Nat.eqb frameCount 0 then DNaN else DInf)
  else DFin (inject_Z (Z.of_nat frameCount) / d).

Definition Qmin' (a b : Q) : Q := if Qle_bool a b then a else b.

(** [measurements.filter(m => m.operation.includes('processing')).map(m => m.duration)] *)
Definition processingTimes (o : optimizer) : list Q :=
  map m_duration (filter (fun m => ErrorHandler.includes (operation m) "processing") (measurements o)).

(** [reduce((sum, t) => sum + t, 0)] *)
Definition sumQ (l : list Q) : Q := fold_left (fun sum t => sum + t) l 0.

Definition averageOf (l : list Q) : Q :=
  if Nat.ltb 0 (List.length l) then sumQ l / inject_Z (Z.of_nat (List.length l)) else 0.

(** [length > 0 ? Math.max(...l) : 0] and [length > 0 ? Math.min(...l) : 0] *)
Definition maxOf (l : list Q) : Q := match l with [] => 0 | t :: ts => fold_left Qmax' ts t end.
Definition minOf (l : list Q) : Q := match l with [] => 0 | t :: ts => fold_left Qmin' ts t end.

(** [(currentMemory.used - memoryBaseline.used) / 1024 / 1024] when both are present. *)
Definition memoryIncreaseOf (memoryBaseline currentMemory : option Q) : Q :=
  match currentMemory, memoryBaseline with
  | Some c, Some b => (c - b) / 1024 / 1024
  | _, _ => 0
  end.

Record optStats := {
  totalRuntime : Q;
  s_frameCount : nat;
  s_averageFPS : dnum;
  s_averageProcessingTime : Q;
  maxProcessingTime : Q;
  minProcessingTime : Q;
  s_errorRate : num;
  totalErrors : nat;
  totalSuccesses : nat;
  memoryIncrease : Q }.

Definition o_getStats (o : optimizer) (memoryBaseline currentMemory : option Q) (now : Q)
    : optStats :=
  let totalTime := now - o_startTime o in
  let pts := processingTimes o in
  {| totalRuntime := totalTime;
     s_frameCount := o_frameCount o;
     s_averageFPS := fps_div (o_frameCount o) (totalTime / 1000);
     s_averageProcessingTime := averageOf pts;
     maxProcessingTime := maxOf pts;
     minProcessingTime := minOf pts;
     s_errorRate := ErrorHandler.count_div (o_errorCount o) (o_successCount o);
     totalErrors := o_errorCount o;
     totalSuccesses := o_successCount o;
     memoryIncrease := memoryIncreaseOf memoryBaseline currentMemory |}.

(** [OPTIMAL_LIPSYNC_CONFIG.performance] thresholds not named before. *)
Definition MAX_MEMORY_INCREASE : Q := 10.
Definition ERROR_THRESHOLD : Q := 5#100.

Definition dnum_gt (x : dnum) (y : Q) : bool :=
  match x with DFin q => Qltb y q | DInf => true | DNaN => false end.
Definition dnum_lt (x : dnum) (y : Q) : bool :=
  match x with DFin q => Qltb q y | DInf | DNaN => false end.

Definition isPerformanceHealthy (o : optimizer) (memoryBaseline currentMemory : option Q)
    (now : Q) : bool :=
  let totalTime := now - o_startTime o in
  let averageProcessingTime := averageOf (processingTimes o) in
  let averageFPS := fps_div (o_frameCount o) (totalTime / 1000) in
  let errorRate := ErrorHandler.count_div (o_errorCount o) (o_successCount o) in
  let memoryIncrease := memoryIncreaseOf memoryBaseline currentMemory in
  Qltb averageProcessingTime MAX_PROCESSING_TIME &&
  Qltb memoryIncrease MAX_MEMORY_INCREASE &&
  dnum_gt averageFPS (TARGET_FPS * (9#10)) &&
  js_lt errorRate (Fin ERROR_THRESHOLD).

Record recommendationRec := {
  issue : string;
  recommendation : string;
  priority : string }.

Definition highProcessingTime : recommendationRec :=
  {| issue := "High processing time"; recommendation := "Reduce fftSize or historySize";
     priority := "high" |}.
Definition highMemoryUsage : recommendationRec :=
  {| issue := "High memory usage";
     recommendation := "Implement memory cleanup or reduce buffer sizes"; priority := "medium" |}.
Definition lowFrameRate : recommendationRec :=
  {| issue := "Low frame rate";
     recommendation := "Optimize rendering loop or reduce processing frequency";
     priority := "high" |}.
Definition highErrorRate : recommendationRec :=
  {| issue := "High error rate";
     recommendation := "Improve error handling and fallback mechanisms"; priority := "critical" |}.

Definition getOptimizationRecommendations (o : optimizer)
    (memoryBaseline currentMemory : option Q) (now : Q) : list recommendationRec :=
  let stats := o_getStats o memoryBaseline currentMemory now in
  (if Qltb MAX_PROCESSING_TIME (s_averageProcessingTime stats) then [highProcessingTime] else []) ++
  (if Qltb MAX_MEMORY_INCREASE (memoryIncrease stats) then [highMemoryUsage] else []) ++
  (if dnum_lt (s_averageFPS stats) (TARGET_FPS * (8#10)) then [lowFrameRate] else []) ++
  (if js_gt (s_errorRate stats) (Fin ERROR_THRESHOLD) then [highErrorRate] else []).

(** *** [runPerformanceBenchmark(lipsyncInstance, duration)]

    One loop iteration: the [performance.now()] of the loop test, the
    [startTiming()] reading, whether the three lipsync calls returned
    ([true]) or threw, and the [performance.now()] of [endTiming]. The
    awaited timeout between iterations only moves the clock. *)
Record benchIteration := {
  loopCheck : Q;
  frameStart : Q;
  succeeded : bool;
  frameEnd : Q }.

Fixpoint benchmark_loop (endTime : Q) (monitor : optimizer) (its : list benchIteration)
    : optimizer :=
  match its with
  | [] => monitor
  | it :: rest =>
      if Qltb (loopCheck it) endTime then
        let monitor := if succeeded it then o_recordSuccess monitor else o_recordError monitor in
        let monitor := o_endTiming monitor (frameStart it) (frameEnd it) "lipsync-processing" in
        benchmark_loop endTime monitor rest
      else monitor
  end.

(** The monitor is constructed at [constructedAt]; [startTime] is the
    clock reading after it; [getStats()] and the recommendations read the
    clock at [statsAt] and [recsAt]. *)
Definition runPerformanceBenchmark (constructedAt startTime duration : Q)
    (its : list benchIteration) (memoryBaseline currentMemory : option Q)
    (statsAt recsAt : Q) : optStats * list recommendationRec :=
  let monitor := optimizer_init constructedAt in
  let endTime := startTime + duration in
  let monitor := benchmark_loop endTime monitor its in
  (o_getStats monitor memoryBaseline currentMemory statsAt,
   getOptimizationRecommendations monitor memoryBaseline currentMemory recsAt).

(** The iterations the loop runs: those before the first failed loop test. *)
Fixpoint iterations_run (endTime : Q) (its : list benchIteration) : list benchIteration :=
  match its with
  | [] => []
  | it :: rest => if Qltb (loopCheck it) endTime then it :: iterations_run endTime rest else []
  end.

(** *** The adaptation ladder of [adaptConfiguration] *)

(** The configuration after the first [k] adaptations. *)
Fixpoint ladder (k : nat) (c : config) : config :=
  match k with
  | O => c
  | S k' => degrade k (ladder k' c)
  end.

(** [c'] asks no more work than [c]: no larger FFT, history, blend count,
    lerp speeds or expression blend factor, and no smaller threshold. *)
Definition no_costlier (c' c : config) : bool :=
  Qle_bool (fftSize c') (fftSize c) && Qle_bool (historySize c') (historySize c) &&
  Qle_bool (MAX_BLEND_VISEMES (smoothing c')) (MAX_BLEND_VISEMES (smoothing c)) &&
  Qle_bool (ACTIVE_LERP_SPEED (smoothing c')) (ACTIVE_LERP_SPEED (smoothing c)) &&
  Qle_bool (NEUTRAL_LERP_SPEED (smoothing c')) (NEUTRAL_LERP_SPEED (smoothing c)) &&
  Qle_bool (EXPRESSION_BLEND_FACTOR (smoothing c')) (EXPRESSION_BLEND_FACTOR (smoothing c)) &&
  Qle_bool (MIN_THRESHOLD (smoothing c)) (MIN_THRESHOLD (smoothing c')).

(** The snapshots [analyzePerformance] is given over a run, in order. *)
Definition snapshots (ops : list adaptiveOp) : list (Q * perfStats) :=
  flat_map (fun op => match op with
                      | AnalyzePerformance stats now => [(now, stats)]
                      | AdaptConfiguration => []
                      end) ops.

End OptimizationMore.

(* ------------------------------------------------------------------ *)
(** ** Configuration objects as shared references

    [detectBrowserAndOptimize] returns [OPTIMAL_LIPSYNC_CONFIG] itself or a
    shallow copy of it, so every configuration it hands out shares the one
    [smoothing] object of [OPTIMAL_LIPSYNC_CONFIG]; [adaptConfiguration]
    mutates [this.currentConfig] in place. Here configuration and smoothing
    objects live in a heap and are held by reference. *)

Module SharedConfig.
Import Optimization OptimizationMore.

Record cfgObj := {
  c_fftSize : Q;
  c_historySize : Q;
  c_smoothing : nat;                    (* reference to a smoothing object *)
  c_flags : option (bool * bool) }.     (* useWebGL, enableHardwareAcceleration *)

Record heap := {
  cfgs : list (nat * cfgObj);
  smooths : list (nat * smoothingConfig);
  next : nat }.

Fixpoint lookup {A} (k : nat) (l : list (nat * A)) : option A :=
  match l with
  | [] => None
  | (k', v) :: l' => if Nat.eqb k k' then Some v else lookup k l'
  end.

Fixpoint update {A} (k : nat) (f : A -> A) (l : list (nat * A)) : list (nat * A) :=
  match l with
  | [] => []
  | (k', v) :: l' => if Nat.eqb k k' then (k', f v) :: l' else (k', v) :: update k f l'
  end.

Definition with_cfgs (h : heap) (cs : list (nat * cfgObj)) : heap :=
  {| cfgs := cs; smooths := smooths h; next := next h |}.
Definition with_smooths (h : heap) (ss : list (nat * smoothingConfig)) : heap :=
  {| cfgs := cfgs h; smooths := ss; next := next h |}.

(** [OPTIMAL_LIPSYNC_CONFIG] is the configuration object at 0, its
    [smoothing] the smoothing object at 0. *)
Definition OPTIMAL_loc : nat := 0.

Definition module_heap : heap :=
  {| cfgs := [(OPTIMAL_loc, {| c_fftSize := 1024; c_historySize := 8; c_smoothing := 0;
                              c_flags := None |})];
     smooths := [(0%nat, smoothing OPTIMAL_LIPSYNC_CONFIG)];
     next := 1 |}.

(** [detectBrowserAndOptimize()] for the branch [br] of the user agent. *)
Definition detect_H (br : option browser) (h : heap) : nat * heap :=
  match br with
  | None => (OPTIMAL_loc, h)
  | Some b =>
      match lookup OPTIMAL_loc (cfgs h) with
      | Some base =>
          let o := BROWSER_OPTIMIZATIONS b in
          (next h,
           {| cfgs := (next h, {| c_fftSize := bo_fftSize o; c_historySize := bo_historySize o;
                                  c_smoothing := c_smoothing base;
                                  c_flags := Some (useWebGL o, enableHardwareAcceleration o) |})
                      :: cfgs h;
              smooths := smooths h; next := S (next h) |})
      | None => (OPTIMAL_loc, h)
      end
  end.

(** An [AdaptivePerformanceOptimizer]: its history (timestamp, stats and
    the shallow copy [{ ...this.currentConfig }]), the reference
    [currentConfig] and [adaptationCount]. *)
Record inst := {
  i_history : list (Q * perfStats * option cfgObj);
  i_config : nat;
  i_count : nat }.

(** The constructor, and [reset()]: both set the three fields afresh. *)
Definition new_H (br : option browser) (h : heap) : inst * heap :=
  let '(l, h') := detect_H br h in
  ({| i_history := []; i_config := l; i_count := 0 |}, h').

Definition analyze_H (i : inst) (h : heap) (stats : perfStats) (now : Q) : inst :=
  let hist := i_history i ++ [(now, stats, lookup (i_config i) (cfgs h))] in
  let hist := if Nat.ltb 10 (List.length hist) then tl hist else hist in
  {| i_history := hist; i_config := i_config i; i_count := i_count i |}.

Definition shouldAdapt_H (i : inst) : bool :=
  if Nat.leb maxAdaptations (i_count i) then false
  else if Nat.ltb (List.length (i_history i)) 3 then false
  else
    let recentStats := map (fun '(_, s, _) => s) (last3 (i_history i)) in
    let avg f := js_div_count (fold_left (fun sum s => js_add sum (f s)) recentStats (Fin 0))
                              (List.length recentStats) in
    js_gt (avg averageProcessingTime) (Fin MAX_PROCESSING_TIME) ||
    js_lt (avg averageFPS) (Fin (TARGET_FPS * (8#10))).

Definition map_smoothing_of (l : nat) (h : heap) (f : smoothingConfig -> smoothingConfig) : heap :=
  match lookup l (cfgs h) with
  | Some c => with_smooths h (update (c_smoothing c) f (smooths h))
  | None => h
  end.

Definition adapt_H (i : inst) (h : heap) : inst * heap :=
  if negb (shouldAdapt_H i) then (i, h)
  else
    let count := S (i_count i) in
    let cur := i_config i in
    let i' := {| i_history := i_history i; i_config := cur; i_count := count |} in
    match count with
    | 1%nat =>
        (i', with_cfgs h (update cur (fun c =>
               {| c_fftSize := c_fftSize c; c_historySize := Qmax' 4 (c_historySize c - 2);
                  c_smoothing := c_smoothing c; c_flags := c_flags c |}) (cfgs h)))
    | 2%nat =>
        (i', with_cfgs h (update cur (fun c =>
               {| c_fftSize := Qmax' 512 (c_fftSize c / 2); c_historySize := c_historySize c;
                  c_smoothing := c_smoothing c; c_flags := c_flags c |}) (cfgs h)))
    | 3%nat =>
        (i', map_smoothing_of cur h (fun sm =>
               {| ACTIVE_LERP_SPEED := ACTIVE_LERP_SPEED sm;
                  NEUTRAL_LERP_SPEED := NEUTRAL_LERP_SPEED sm;
                  MIN_THRESHOLD := MIN_THRESHOLD sm * (3#2);
                  MAX_BLEND_VISEMES := Qmax' 1 (MAX_BLEND_VISEMES sm - 1);
                  EXPRESSION_BLEND_FACTOR := EXPRESSION_BLEND_FACTOR sm |}))
    | 4%nat =>
        (i', map_smoothing_of cur h (fun sm =>
               {| ACTIVE_LERP_SPEED := ACTIVE_LERP_SPEED sm * (8#10);
                  NEUTRAL_LERP_SPEED := NEUTRAL_LERP_SPEED sm * (8#10);
                  MIN_THRESHOLD := MIN_THRESHOLD sm;
                  MAX_BLEND_VISEMES := MAX_BLEND_VISEMES sm;
                  EXPRESSION_BLEND_FACTOR := EXPRESSION_BLEND_FACTOR sm |}))
    | _ =>
        (* a fresh configuration object with a fresh smoothing object *)
        let s := next h in
        let c := S (next h) in
        ({| i_history := i_history i; i_config := c; i_count := count |},
         {| cfgs := (c, {| c_fftSize := 256; c_historySize := 2; c_smoothing := s;
                          c_flags := None |}) :: cfgs h;
            smooths := (s, {| ACTIVE_LERP_SPEED := 1#10; NEUTRAL_LERP_SPEED := 1#10;
                              MIN_THRESHOLD := 1#10; MAX_BLEND_VISEMES := 1;
                              EXPRESSION_BLEND_FACTOR := 1#10 |}) :: smooths h;
            next := S (S (next h)) |})
    end.

Inductive instOp :=
| HAnalyze (stats : perfStats) (now : Q)
| HAdapt
| HReset.

Definition inst_step (br : option browser) (s : inst * heap) (op : instOp) : inst * heap :=
  let '(i, h) := s in
  match op with
  | HAnalyze stats now => (analyze_H i h stats now, h)
  | HAdapt => adapt_H i h
  | HReset => new_H br h
  end.

Definition inst_run (br : option browser) (ops : list instOp) (s : inst * heap) : inst * heap :=
  fold_left (inst_step br) ops s.

(** The configuration a reference denotes, read through the heap. *)
Definition resolve (h : heap) (l : nat) : option config :=
  match lookup l (cfgs h) with
  | Some c =>
      match lookup (c_smoothing c) (smooths h) with
      | Some sm => Some {| fftSize := c_fftSize c; historySize := c_historySize c; smoothing := sm |}
      | None => None
      end
  | None => None
  end.

(** Three slow snapshots, three adaptations, then [reset()]. *)
Definition slowStats : perfStats := {| averageProcessingTime := Fin 2; averageFPS := Fin 60 |}.
Definition adapt3_then_reset : list instOp :=
  [HAnalyze slowStats 0; HAnalyze slowStats 1; HAnalyze slowStats 2;
   HAdapt; HAdapt; HAdapt; HReset].

(** An optimiser constructed in a fresh module, run through [ops], for the
    user agent [userAgent]. *)
Definition run_from_module (userAgent : string) (ops : list instOp) : inst * heap :=
  inst_run (browser_branch userAgent) ops (new_H (browser_branch userAgent) module_heap).

End SharedConfig.

(* ================================================================== *)
(** * Proofs *)

Module SelectionFacts.
Import Selection.

Lemma in_firstn {A} n (l : list A) x : In x (firstn n l) -> In x l.
Proof.
  intro H. rewrite <- (firstn_skipn n l). apply in_or_app. left. exact H.
Qed.

Lemma js_gt_fin (x : entry) (t : num) :
  js_gt (snd x) t = true -> is_fin x.
Proof. unfold is_fin. destruct x as [k [q|]], t; simpl; try discriminate; eauto. Qed.

Lemma Qltb_true a b : Qltb a b = true <-> (a < b)%Q.
Proof.
  unfold Qltb. rewrite negb_true_iff. split; intro H.
  - apply Qnot_le_lt. intro H'. apply Qle_bool_iff in H'. congruence.
  - destruct (Qle_bool b a) eqn:E; [|reflexivity].
    apply Qle_bool_iff in E. exfalso. apply (Qlt_not_le _ _ H E).
Qed.

Lemma insert_perm x l : Permutation (insert x l) (x :: l).
Proof.
  induction l as [|y ys IH]; simpl; [reflexivity|].
  destruct (js_gt _ _); [reflexivity|].
  rewrite IH. apply perm_swap.
Qed.

Lemma sort_perm_acc l acc :
  Permutation (fold_left (fun acc x => insert x acc) l acc) (l ++ acc).
Proof.
  revert acc; induction l as [|x l IH]; intro acc; simpl; [reflexivity|].
  rewrite IH, insert_perm. symmetry. apply Permutation_middle.
Qed.

Lemma sort_perm l : Permutation (sort l) l.
Proof. unfold sort. rewrite sort_perm_acc, app_nil_r. reflexivity. Qed.

Lemma insert_hdrel a x l :
  HdRel score_desc a l -> score_desc a x -> HdRel score_desc a (insert x l).
Proof.
  intros H Hx. destruct l as [|y ys]; simpl.
  - constructor; exact Hx.
  - destruct (js_gt _ _); constructor; [exact Hx|]. inversion H; assumption.
Qed.

Lemma insert_sorted x l :
  is_fin x -> Forall is_fin l -> Sorted score_desc l -> Sorted score_desc (insert x l).
Proof.
  intros [qx Hx] Hf Hs. induction l as [|y ys IH]; simpl.
  - repeat constructor.
  - inversion Hf as [|? ? [qy Hy] Hf']; subst.
    inversion Hs as [|? ? Hs' Hhd]; subst.
    unfold compare_entries. rewrite Hx, Hy. simpl.
    destruct (Qltb 0 (qx - qy)) eqn:E.
    + apply Qltb_true in E. constructor; [assumption|].
      constructor. unfold score_desc. rewrite Hx, Hy. lra.
    + assert (Hle : (qx <= qy)%Q).
      { apply Qnot_lt_le. intro C. assert (Hc : (0 < qx - qy)%Q) by lra.
        apply Qltb_true in Hc. congruence. }
      constructor; [apply IH; assumption|].
      apply insert_hdrel; [assumption|]. unfold score_desc. rewrite Hx, Hy. exact Hle.
Qed.

Lemma sort_sorted_acc l acc :
  Forall is_fin l -> Forall is_fin acc -> Sorted score_desc acc ->
  Sorted score_desc (fold_left (fun acc x => insert x acc) l acc).
Proof.
  revert acc; induction l as [|x l IH]; intros acc Hl Ha Hs; simpl; [assumption|].
  inversion Hl; subst. apply IH; [assumption| |].
  - eapply Permutation_Forall; [symmetry; apply insert_perm|]. constructor; assumption.
  - apply insert_sorted; assumption.
Qed.

Lemma sort_sorted l : Forall is_fin l -> Sorted score_desc (sort l).
Proof. intro H. apply sort_sorted_acc; auto. Qed.

Lemma filter_fin t l : Forall is_fin (filter (fun e => js_gt (snd e) t) l).
Proof.
  apply Forall_forall. intros x Hx. apply filter_In in Hx as [_ Hx].
  eapply js_gt_fin; exact Hx.
Qed.

(** C1: [activeVisemes] keeps the entries scoring strictly above
    [minThreshold], in descending score order, cut to the first [maxBlend]
    of them: so at most [maxBlend] entries, none at or below the threshold;
    and on {AA:0.8, E:0.4, I:0.2, O:0.05} with threshold 0.02 and
    [maxBlend = 3] the selection is [AA, E, I]. *)
Theorem activeVisemes_spec (minThreshold : num) (maxBlend : nat)
    (visemeScores : list entry) (Hm : (1 <= maxBlend)%nat) :
  (exists sorted,
      Permutation sorted (filter (fun e => js_gt (snd e) minThreshold) visemeScores) /\
      Sorted score_desc sorted /\
      activeVisemes minThreshold maxBlend visemeScores = firstn maxBlend sorted) /\
  (List.length (activeVisemes minThreshold maxBlend visemeScores) <= maxBlend)%nat /\
  (forall k v, List.In (k, v) (activeVisemes minThreshold maxBlend visemeScores) ->
     js_gt v minThreshold = true) /\
  map fst (activeVisemes (Fin (2#100)) 3 testScores) = ["viseme_AA"; "viseme_E"; "viseme_I"].
Proof.
  split; [|split; [|split]].
  - eexists. split; [apply sort_perm|]. split; [|reflexivity].
    apply sort_sorted, filter_fin.
  - unfold activeVisemes. apply firstn_le_length.
  - intros k v Hin. unfold activeVisemes in Hin.
    apply in_firstn in Hin.
    apply (Permutation_in _ (sort_perm _)) in Hin.
    apply filter_In in Hin as [_ Hin]. exact Hin.
  - vm_compute. reflexivity.
Qed.

Lemma activeVisemes_spec_witness :
  (List.length (activeVisemes (Fin (2#100)) 3 testScores) <= 3)%nat.
Proof.
  exact (proj1 (proj2 (activeVisemes_spec (Fin (2#100)) 3 testScores ltac:(lia)))).
Defined.

End SelectionFacts.

Module BlendingFacts.
Import Blending.

Lemma assoc_Forall {A} (P : A -> Prop) k (l : list (string * A)) v :
  Forall (fun kv => P (snd kv)) l -> assoc k l = Some v -> P v.
Proof.
  induction l as [|[k' v'] l IH]; simpl; intros Hf H; [discriminate|].
  inversion Hf; subst. destruct (String.eqb k k'); [injection H as <-; assumption|auto].
Qed.

Lemma set_prop_Forall {A} (P : A -> Prop) k v (l : list (string * A)) :
  Forall (fun kv => P (snd kv)) l -> P v -> Forall (fun kv => P (snd kv)) (set_prop k v l).
Proof.
  induction l as [|[k' v'] l IH]; simpl; intros Hf Hv; [constructor|].
  inversion Hf; subst. destruct (String.eqb k k'); constructor; auto.
Qed.

Lemma assoc_set_prop {A} k v (l : list (string * A)) cur :
  assoc k l = Some cur -> assoc k (set_prop k v l) = Some v.
Proof.
  induction l as [|[k' v'] l IH]; simpl; intro H; [discriminate|].
  destruct (String.eqb k k') eqn:E; simpl; rewrite E; auto.
Qed.

Lemma Qle_bool_false x y : Qle_bool x y = false -> (y < x)%Q.
Proof.
  intro H. apply Qnot_le_lt. intro C. apply Qle_bool_iff in C. congruence.
Qed.

Ltac qle_cases :=
  repeat match goal with
  | |- context [Qle_bool ?a ?b] =>
      let E := fresh "E" in
      destruct (Qle_bool a b) eqn:E;
      [apply Qle_bool_iff in E | apply Qle_bool_false in E]
  end.

Lemma clamp01_unit v : v <> NaN -> unit_val (clamp01 v).
Proof.
  destruct v as [x|]; [intros _|congruence].
  unfold clamp01, Math_min, Math_max. qle_cases;
  eexists; (split; [reflexivity|]); lra.
Qed.

Lemma lerp_unit cur v s :
  unit_val cur -> v <> NaN -> (0 <= s <= 1)%Q ->
  unit_val (js_add cur (js_mul (js_sub (clamp01 v) cur) (Fin s))).
Proof.
  intros [c [-> Hc]] Hv Hs. destruct (clamp01_unit v Hv) as [x [Hx Hx']].
  rewrite Hx. simpl. eexists; split; [reflexivity|]. nra.
Qed.

Lemma applyMorphTarget_unit st t v s :
  unit_store st -> v <> NaN -> (0 <= s <= 1)%Q ->
  unit_store (applyMorphTarget st t v (Fin s)).
Proof.
  intros Hst Hv Hs. unfold applyMorphTarget.
  destruct (assoc t st) as [cur|] eqn:E; [|exact Hst].
  apply set_prop_Forall; [exact Hst|].
  apply lerp_unit; [eapply assoc_Forall; eauto|assumption|assumption].
Qed.

Lemma fold_left_inv {A B} (P : A -> Prop) (f : A -> B -> A) l a :
  (forall a x, List.In x l -> P a -> P (f a x)) -> P a -> P (fold_left f l a).
Proof.
  revert a; induction l as [|x l IH]; intros a Hf Ha; simpl; [exact Ha|].
  apply IH; [intros; apply Hf; simpl; auto|apply Hf; simpl; auto].
Qed.

Lemma facialExpressions_fin name mapping :
  assoc name facialExpressions = Some mapping ->
  Forall (fun kv => snd kv <> NaN) mapping.
Proof.
  apply assoc_Forall.
  repeat constructor; simpl; discriminate.
Qed.

Lemma simulateFrameUpdate_unit st fe lip has :
  unit_store st -> unit_store (simulateFrameUpdate st fe lip has).
Proof.
  intro Hst. unfold simulateFrameUpdate.
  apply fold_left_inv.
  { intros a target _ Ha. destruct (existsb _ _); [exact Ha|].
    apply applyMorphTarget_unit; [exact Ha|discriminate|lra]. }
  destruct has, lip as [vis|]; try apply fold_left_inv;
    try (intros a [viseme value] _ Ha;
         destruct (assoc viseme visemeMapping) as [mt|]; [|exact Ha];
         destruct (truthy_string mt && js_gt value MIN_THRESHOLD) eqn:E; [|exact Ha];
         apply andb_true_iff in E as [_ E];
         apply applyMorphTarget_unit; [exact Ha| |lra];
         destruct value; [discriminate|discriminate E]);
  (destruct fe as [name|]; [|exact Hst];
   destruct (assoc name facialExpressions) as [mapping|] eqn:Em; [|exact Hst];
   pose proof (facialExpressions_fin _ _ Em) as Hfin;
   apply fold_left_inv; [|exact Hst];
   intros a [key value] Hin Ha;
   assert (Hv : value <> NaN)
     by (apply (proj1 (Forall_forall _ _) Hfin) in Hin; exact Hin);
   destruct (String.eqb key _ || String.eqb key _); [exact Ha|];
   destruct (isVisemeTarget key);
   (apply applyMorphTarget_unit; [exact Ha| |lra]);
   [destruct value; [discriminate|exfalso; apply Hv; reflexivity]|exact Hv]).
Qed.

(** C2 (amended): every write [applyMorphTarget(target, value, lerpSpeed)]
    to a target holding [currentValue] stores
    [currentValue + (clamp01 value - currentValue) * lerpSpeed], the
    interpolation toward the clamped value, not the clamped value itself;
    for a numeric (non-NaN) value and a speed in [0,1] the written
    intensity is in [0,1] whenever [currentValue] was; and every frame of
    [simulateFrameUpdate] keeps every intensity of a store in [0,1] in
    [0,1]. *)
Theorem applyMorphTarget_range :
  (forall (st : store) (target : string) (value lerpSpeed currentValue : num),
     assoc target st = Some currentValue ->
     assoc target (applyMorphTarget st target value lerpSpeed) =
     Some (js_add currentValue (js_mul (js_sub (clamp01 value) currentValue) lerpSpeed))) /\
  (forall (st : store) (target : string) (value currentValue : num) (s : Q),
     assoc target st = Some currentValue -> unit_val currentValue ->
     value <> NaN -> (0 <= s <= 1)%Q ->
     exists v, assoc target (applyMorphTarget st target value (Fin s)) = Some v /\ unit_val v) /\
  (forall (st : store) (facialExpression : option string)
          (lipsyncVisemes : option (list (string * num))) (hasActiveLipsync : bool),
     unit_store st -> unit_store (simulateFrameUpdate st facialExpression lipsyncVisemes hasActiveLipsync)).
Proof.
  split; [|split].
  - intros st target value s cur Hc. unfold applyMorphTarget. rewrite Hc.
    eapply assoc_set_prop; exact Hc.
  - intros st target value cur s Hc Hu Hv Hs. unfold applyMorphTarget. rewrite Hc.
    eexists. split; [eapply assoc_set_prop; exact Hc|].
    apply lerp_unit; assumption.
  - intros st fe lip has Hst. apply simulateFrameUpdate_unit, Hst.
Qed.

Lemma initialMorphTargets_unit : unit_store initialMorphTargets.
Proof.
  repeat constructor; eexists; (split; [reflexivity|]); lra.
Qed.

(** C2 counterexample: writing 2 to [viseme_AA] at speed 0.1 from the
    initial store stores 0.1, not 1. *)
Lemma applyMorphTarget_stores_lerp :
  exists q, assoc "viseme_AA"
              (applyMorphTarget initialMorphTargets "viseme_AA" (Fin 2) (Fin (1#10)))
            = Some (Fin q) /\ ~ (q == 1)%Q.
Proof.
  eexists. split; [reflexivity|]. vm_compute. discriminate.
Qed.

(** The write does not test for NaN: a NaN value is stored as NaN, whereas
    the test's [clampValue] maps NaN to 0. *)
Lemma applyMorphTarget_NaN :
  assoc "viseme_AA" (applyMorphTarget initialMorphTargets "viseme_AA" NaN (Fin (1#10)))
  = Some NaN /\ clampValue NaN = Fin 0.
Proof. split; reflexivity. Qed.

Lemma applyMorphTarget_range_witness :
  exists v, assoc "viseme_AA" (applyMorphTarget initialMorphTargets "viseme_AA" (Fin 2) (Fin (1#10)))
              = Some v /\ unit_val v.
Proof.
  exact (proj1 (proj2 applyMorphTarget_range) initialMorphTargets "viseme_AA" (Fin 2) (Fin 0) (1#10)
    eq_refl ltac:(exists 0; split; [reflexivity|lra]) ltac:(discriminate)
    ltac:(split; vm_compute; discriminate)).
Defined.




End BlendingFacts.

Module ErrorHandlerFacts.
Import ErrorHandler.

Ltac case_ifs :=
  repeat match goal with
  | |- context [if ?b then _ else _] => destruct b
  end.

(** C4: [categorizeError] is the first-match classification over the
    ordered rules (context, audio/connect, process/analyze, not
    supported/unavailable, init/constructor, else unknown) on the
    lower-cased name and message; a missing error is [UNKNOWN_ERROR]; a
    message with "audio" and "process" (and no earlier rule firing) is an
    audio connection failure, whatever the letter case. *)
Theorem categorizeError_first_match :
  (forall error, categorizeError error = classify_first_match error) /\
  categorizeError None = UNKNOWN_ERROR /\
  (forall e, includes (lowered (name e)) "invalidstate" = false ->
             includes (lowered (message e)) "context" = false ->
             includes (lowered (message e)) "audio" = true ->
             includes (lowered (message e)) "process" = true ->
             categorizeError (Some e) = AUDIO_CONNECTION_FAILED) /\
  categorizeError (Some {| message := Some "Failed to PROCESS the Audio stream";
                           name := Some "Error" |}) = AUDIO_CONNECTION_FAILED.
Proof.
  split; [|split; [reflexivity|split]].
  - intros [e|]; [|reflexivity]. unfold categorizeError, classify_first_match.
    simpl. case_ifs; reflexivity.
  - intros e H1 H2 H3 H4. unfold categorizeError. rewrite H1, H2, H3. reflexivity.
  - vm_compute. reflexivity.
Qed.

(** C5: [getRecoveryStrategy] returns, for each of the six kinds, the
    fixed [(delay, maxRetries)] of the table; [BROWSER_UNSUPPORTED] has no
    retry, every other kind at least one retry and a positive delay. *)
Theorem getRecoveryStrategy_table :
  (forall t, (delay (getRecoveryStrategy (LIPSYNC_ERROR_TYPES t)),
              maxRetries (getRecoveryStrategy (LIPSYNC_ERROR_TYPES t))) = recovery_table t) /\
  maxRetries (getRecoveryStrategy (LIPSYNC_ERROR_TYPES BROWSER_UNSUPPORTED)) = 0%nat /\
  (forall t, t <> BROWSER_UNSUPPORTED ->
     (1 <= maxRetries (getRecoveryStrategy (LIPSYNC_ERROR_TYPES t)))%nat /\
     (0 < delay (getRecoveryStrategy (LIPSYNC_ERROR_TYPES t)))%nat).
Proof.
  split; [|split].
  - intros []; reflexivity.
  - reflexivity.
  - intros [] H; try (exfalso; apply H; reflexivity); vm_compute; split; lia.
Qed.

Lemma clamp_Q x :
  exists q, Math_max (Fin 0) (Math_min (Fin x) (Fin 1)) = Fin q /\
            (q == Qmax 0 (Qmin x 1))%Q /\ (0 <= q <= 1)%Q.
Proof.
  unfold Math_min, Math_max.
  destruct (Qle_bool x 1) eqn:E1;
    [apply Qle_bool_iff in E1|apply BlendingFacts.Qle_bool_false in E1];
  BlendingFacts.qle_cases;
  eexists; (split; [reflexivity|]);
  destruct (Q.min_spec x 1) as [[? Hm]|[? Hm]];
  destruct (Q.max_spec 0 (Qmin x 1)) as [[? HM]|[? HM]]; split; lra.
Qed.

(** C8: [generateFallbackLipsync] returns the empty mapping when the audio
    element is missing, paused or ended, or its duration is falsy (0 or
    NaN) or reached; otherwise exactly [viseme_AA], [viseme_E], [viseme_I],
    [viseme_O] with the values [base * 0.7], [base * 0.3], [base * 0.2],
    [base * 0.4] where [base = max(0, min(sin(currentTime * 8) * intensity
    + intensity, 1))]; the result depends on nothing but the arguments, and
    a missing [intensity] is 0.5. *)
Theorem generateFallbackLipsync_spec (Math_sin : Q -> Q) :
  (forall intensity, generateFallbackLipsync Math_sin None intensity = []) /\
  (forall a intensity,
     (paused a || ended a || falsy_num (duration a) ||
      js_ge (Fin (currentTime a)) (duration a)) = true ->
     generateFallbackLipsync Math_sin (Some a) intensity = []) /\
  (forall a i d,
     paused a = false -> ended a = false -> duration a = Fin d -> ~ (d == 0)%Q ->
     (currentTime a < d)%Q ->
     let base := Qmax 0 (Qmin (Math_sin (currentTime a * 8) * i + i) 1) in
     map fst (generateFallbackLipsync Math_sin (Some a) (Some i)) =
       ["viseme_AA"; "viseme_E"; "viseme_I"; "viseme_O"] /\
     Forall2 (fun kv w => exists q, snd kv = Fin q /\ (q == base * w)%Q)
       (generateFallbackLipsync Math_sin (Some a) (Some i)) [7#10; 3#10; 2#10; 4#10] /\
     (0 <= base <= 1)%Q) /\
  (forall a, generateFallbackLipsync Math_sin a None =
             generateFallbackLipsync Math_sin a (Some (1#2))).
Proof.
  split; [reflexivity|split; [|split]].
  - intros a i H. unfold generateFallbackLipsync.
    destruct (paused a), (ended a); try reflexivity.
    simpl in H. simpl. rewrite H. reflexivity.
  - intros a i d Hp He Hd Hd0 Ht base. unfold generateFallbackLipsync.
    rewrite Hp, He, Hd. cbv zeta.
    destruct (clamp_Q (Math_sin (currentTime a * 8) * i + i)) as [q [Hq [Heq Hb]]].
    change (js_add (js_mul (Fin (Math_sin (currentTime a * 8))) (Fin i)) (Fin i))
      with (Fin (Math_sin (currentTime a * 8) * i + i)).
    rewrite Hq. simpl.
    assert (Hf : Qeq_bool d 0 = false).
    { destruct (Qeq_bool d 0) eqn:E; [|reflexivity].
      apply Qeq_bool_iff in E. contradiction. }
    assert (Hg : Qle_bool d (currentTime a) = false).
    { destruct (Qle_bool d (currentTime a)) eqn:E; [|reflexivity].
      apply Qle_bool_iff in E. lra. }
    rewrite Hf, Hg. simpl. split; [reflexivity|]. split.
    + repeat constructor; eexists; (split; [reflexivity|]); unfold base; rewrite <- Heq; reflexivity.
    + unfold base. rewrite <- Heq. exact Hb.
  - reflexivity.
Qed.

Lemma when_push_warning b w s :
  exists ws, when b (push_warning w) s =
    ({| isSupported := isSupported s; missingFeatures := missingFeatures s;
        warnings := warnings s ++ ws |}, Some tt) /\
    (b = true -> List.In w ws).
Proof.
  destruct b; simpl.
  - exists [w]. split; [reflexivity|]. intros _. left. reflexivity.
  - exists []. rewrite app_nil_r. destruct s; split; [reflexivity|discriminate].
Qed.

Lemma ua_checks_warnings ua s :
  exists ws, ua_checks ua s =
    ({| isSupported := isSupported s; missingFeatures := missingFeatures s;
        warnings := warnings s ++ ws |}, Some tt) /\
    (includes ua "safari" && negb (includes ua "chrome") = true ->
       List.In "Safari may have limited Web Audio API support" ws) /\
    (mobile_test ua = true ->
       List.In "Mobile browsers may have performance limitations" ws).
Proof.
  unfold ua_checks, bind.
  destruct (when_push_warning (includes ua "safari" && negb (includes ua "chrome"))
              "Safari may have limited Web Audio API support" s) as [w1 [-> H1]].
  cbn [isSupported missingFeatures warnings].
  destruct (when_push_warning (mobile_test ua)
              "Mobile browsers may have performance limitations"
              {| isSupported := isSupported s; missingFeatures := missingFeatures s;
                 warnings := warnings s ++ w1 |}) as [w2 [-> H2]].
  cbn [isSupported missingFeatures warnings].
  set (s2 := {| isSupported := isSupported s; missingFeatures := missingFeatures s;
                warnings := (warnings s ++ w1) ++ w2 |}).
  assert (Hff : exists w3, when (includes ua "firefox")
      (match firefox_match ua with
       | Some v => when (Nat.ltb (parseInt_digits v) 60)
                     (push_warning "Firefox version may be too old for optimal support")
       | None => ret tt
       end) s2 =
      ({| isSupported := isSupported s2; missingFeatures := missingFeatures s2;
          warnings := warnings s2 ++ w3 |}, Some tt)).
  { destruct (includes ua "firefox"); [destruct (firefox_match ua)|].
    - cbv [when]. destruct (Nat.ltb (parseInt_digits s0) 60).
      + eexists. reflexivity.
      + exists []. rewrite app_nil_r. reflexivity.
    - exists []. rewrite app_nil_r. reflexivity.
    - exists []. rewrite app_nil_r. reflexivity. }
  destruct Hff as [w3 Hff]. rewrite Hff. simpl.
  exists (w1 ++ w2 ++ w3). rewrite !app_assoc. split; [reflexivity|].
  split; intro H; apply in_app_iff; left; apply in_app_iff;
    [left; apply H1, H|right; apply H2, H].
Qed.

Lemma probe_raises_spec e :
  probe_raises e = match window e, userAgent e with Some _, Some _ => false | _, _ => true end.
Proof.
  destruct e as [[[ac wk ms th]|] [ua|]];
    [destruct ac, wk, ms, th|destruct ac, wk, ms, th| |];
    unfold probe_raises, detect_body, bind; simpl;
    try (match goal with |- context [ua_checks ?u ?s] =>
           destruct (ua_checks_warnings u s) as [ws [-> _]] end);
    reflexivity.
Qed.

Lemma detect_result e :
  exists r, detectBrowserSupport e = Some r /\
    isSupported r = negb (primitive_missing e || probe_raises e) /\
    missingFeatures r =
      (match window e with
       | Some w => (if negb (AudioContext w || webkitAudioContext w) then [webAudioAPI] else []) ++
                   (if negb (MediaStream w) then [mediaStream] else [])
       | None => []
       end) ++ (if probe_raises e then ["Browser detection failed"] else []) /\
    (forall w ua, window e = Some w -> userAgent e = Some ua ->
       (analyserProbeThrows w && (AudioContext w || webkitAudioContext w) = true ->
          List.In "AnalyserNode creation failed" (warnings r)) /\
       (includes (toLowerCase ua) "safari" && negb (includes (toLowerCase ua) "chrome") = true ->
          List.In "Safari may have limited Web Audio API support" (warnings r)) /\
       (mobile_test (toLowerCase ua) = true ->
          List.In "Mobile browsers may have performance limitations" (warnings r))).
Proof.
  rewrite probe_raises_spec.
  destruct e as [[[ac wk ms th]|] [ua|]];
    unfold detectBrowserSupport, detectBrowserSupport_M, detect_body, try_catch, bind; simpl.
  - destruct ac, wk, ms, th; simpl;
    match goal with |- context [ua_checks ?u ?s] =>
      destruct (ua_checks_warnings u s) as [ws [Heq [Hs Hm]]]; rewrite Heq end;
    simpl; eexists; (split; [reflexivity|]); simpl;
      (split; [reflexivity|]); (split; [reflexivity|]);
      intros w u Hw Hu; injection Hw as <-; injection Hu as <-; simpl;
      (split; [intro H; try discriminate H; left; reflexivity|]);
      (split; intro H; repeat apply in_cons; auto).
  - destruct ac, wk, ms, th; simpl; eexists; (split; [reflexivity|]); simpl;
      (split; [reflexivity|]); (split; [reflexivity|]); intros w u _ Hu; discriminate Hu.
  - eexists; (split; [reflexivity|]); simpl;
      (split; [reflexivity|]); (split; [reflexivity|]); intros w u Hw; discriminate Hw.
  - eexists; (split; [reflexivity|]); simpl;
      (split; [reflexivity|]); (split; [reflexivity|]); intros w u Hw; discriminate Hw.
Qed.

(** C9: [detectBrowserSupport()] returns for every environment (every
    failure of the probes is caught); [isSupported] is false exactly when
    the audio-context or media-stream primitive is missing or the probing
    raised, the latter adding the missing feature "Browser detection
    failed"; a failing analyser probe adds a warning, as do Safari-class
    and mobile-class user agents, and neither changes [isSupported] or the
    missing features. *)
Theorem detectBrowserSupport_never_throws :
  (forall e, exists r, detectBrowserSupport e = Some r /\
     (isSupported r = false <-> primitive_missing e = true \/ probe_raises e = true) /\
     (probe_raises e = true -> List.In "Browser detection failed" (missingFeatures r)) /\
     (forall w ua, window e = Some w -> userAgent e = Some ua ->
        (analyserProbeThrows w && (AudioContext w || webkitAudioContext w) = true ->
           List.In "AnalyserNode creation failed" (warnings r)) /\
        (includes (toLowerCase ua) "safari" && negb (includes (toLowerCase ua) "chrome") = true ->
           List.In "Safari may have limited Web Audio API support" (warnings r)) /\
        (mobile_test (toLowerCase ua) = true ->
           List.In "Mobile browsers may have performance limitations" (warnings r)))) /\
  (forall w ua1 ua2,
     option_map (fun r => (isSupported r, missingFeatures r))
       (detectBrowserSupport {| window := Some w; userAgent := Some ua1 |}) =
     option_map (fun r => (isSupported r, missingFeatures r))
       (detectBrowserSupport {| window := Some w; userAgent := Some ua2 |})) /\
  (forall ac wk ms ua,
     option_map (fun r => (isSupported r, missingFeatures r))
       (detectBrowserSupport {| window := Some {| AudioContext := ac; webkitAudioContext := wk;
                                                  MediaStream := ms; analyserProbeThrows := true |};
                                userAgent := ua |}) =
     option_map (fun r => (isSupported r, missingFeatures r))
       (detectBrowserSupport {| window := Some {| AudioContext := ac; webkitAudioContext := wk;
                                                  MediaStream := ms; analyserProbeThrows := false |};
                                userAgent := ua |})).
Proof.
  split; [|split].
  - intro e. destruct (detect_result e) as [r [Hr [Hs [Hm Hw]]]].
    exists r. split; [exact Hr|]. split; [|split; [|exact Hw]].
    + rewrite Hs. destruct (primitive_missing e), (probe_raises e); simpl; intuition congruence.
    + intro Hp. rewrite Hm, Hp. apply in_or_app. right. left. reflexivity.
  - intros w ua1 ua2.
    destruct (detect_result {| window := Some w; userAgent := Some ua1 |}) as [r1 [Hr1 [Hs1 [Hm1 _]]]].
    destruct (detect_result {| window := Some w; userAgent := Some ua2 |}) as [r2 [Hr2 [Hs2 [Hm2 _]]]].
    rewrite Hr1, Hr2. simpl. rewrite Hs1, Hs2, Hm1, Hm2, !probe_raises_spec. reflexivity.
  - intros ac wk ms ua.
    match goal with |- option_map _ (detectBrowserSupport ?e1) = option_map _ (detectBrowserSupport ?e2) =>
      destruct (detect_result e1) as [r1 [Hr1 [Hs1 [Hm1 _]]]];
      destruct (detect_result e2) as [r2 [Hr2 [Hs2 [Hm2 _]]]] end.
    rewrite Hr1, Hr2. simpl. rewrite Hs1, Hs2, Hm1, Hm2, !probe_raises_spec. reflexivity.
Qed.

End ErrorHandlerFacts.

Module OptimizationFacts.
Import Optimization.

(** C6: [shouldAdapt()] is true exactly when the counter is below 5, at
    least 3 snapshots are recorded, and the average processing time of the
    last 3 exceeds 1.0 ms or their average FPS is below 80% of 60; over any
    run of [analyzePerformance]/[adaptConfiguration] from a fresh optimiser
    the counter stays at most 5, and a step raises it only by one, only
    with at least 3 snapshots recorded and the counter below 5. *)
Theorem shouldAdapt_gate_and_cap :
  (forall a, shouldAdapt a = true <->
     (adaptationCount a < 5)%nat /\ (3 <= List.length (performanceHistory a))%nat /\
     (js_gt (recentAverage averageProcessingTime (last3 (performanceHistory a))) (Fin 1) = true \/
      js_lt (recentAverage averageFPS (last3 (performanceHistory a))) (Fin (60 * (8#10))) = true)) /\
  (forall cfg ops, (adaptationCount (adaptive_run (adaptive_init cfg) ops) <= 5)%nat) /\
  (forall a op,
     adaptationCount (adaptive_step a op) = adaptationCount a \/
     (adaptationCount (adaptive_step a op) = S (adaptationCount a) /\
      (3 <= List.length (performanceHistory a))%nat /\ (adaptationCount a < 5)%nat)).
Proof.
  assert (Hgate : forall a, shouldAdapt a = true <->
     (adaptationCount a < 5)%nat /\ (3 <= List.length (performanceHistory a))%nat /\
     (js_gt (recentAverage averageProcessingTime (last3 (performanceHistory a))) (Fin 1) = true \/
      js_lt (recentAverage averageFPS (last3 (performanceHistory a))) (Fin (60 * (8#10))) = true)).
  { intro a. unfold shouldAdapt, maxAdaptations, MAX_PROCESSING_TIME, TARGET_FPS.
    destruct (Nat.leb 5 (adaptationCount a)) eqn:E1;
      [apply Nat.leb_le in E1|apply Nat.leb_gt in E1].
    { split; [discriminate|lia]. }
    destruct (Nat.ltb (List.length (performanceHistory a)) 3) eqn:E2;
      [apply Nat.ltb_lt in E2|apply Nat.ltb_ge in E2].
    { split; [discriminate|lia]. }
    rewrite orb_true_iff. tauto. }
  assert (Hstep : forall a op,
     adaptationCount (adaptive_step a op) = adaptationCount a \/
     (adaptationCount (adaptive_step a op) = S (adaptationCount a) /\
      (3 <= List.length (performanceHistory a))%nat /\ (adaptationCount a < 5)%nat)).
  { intros a [stats now|]; simpl; [left; reflexivity|].
    unfold adaptConfiguration. destruct (shouldAdapt a) eqn:E; simpl; [|left; reflexivity].
    right. apply Hgate in E as [E1 [E2 _]]. auto. }
  split; [exact Hgate|split; [|exact Hstep]].
  intros cfg ops. unfold adaptive_run.
  apply BlendingFacts.fold_left_inv; [|simpl; lia].
  intros a op _ Ha. destruct (Hstep a op) as [->|[-> [_ ?]]]; lia.
Qed.

(** C10: whenever [shouldAdapt()] is false, for whichever reason,
    [adaptConfiguration()] leaves the state (counter, configuration,
    history) unchanged and returns the current configuration. *)
Theorem adaptConfiguration_noop (a : adaptive) (H : shouldAdapt a = false) :
  adaptConfiguration a = (a, currentConfig a).
Proof. unfold adaptConfiguration. rewrite H. reflexivity. Qed.

Lemma adaptConfiguration_noop_witness :
  adaptConfiguration (adaptive_init OPTIMAL_LIPSYNC_CONFIG) =
  (adaptive_init OPTIMAL_LIPSYNC_CONFIG, OPTIMAL_LIPSYNC_CONFIG).
Proof. exact (adaptConfiguration_noop (adaptive_init OPTIMAL_LIPSYNC_CONFIG) eq_refl). Defined.

End OptimizationFacts.

Module PerformanceFacts.
Import ErrorHandler Optimization.

Lemma endTiming_length m st now :
  (List.length (processingTime m) <= 100)%nat ->
  (List.length (processingTime (endTiming m st now)) <= 100)%nat.
Proof.
  intro H. unfold endTiming. simpl.
  destruct (Nat.ltb 100 (List.length (processingTime m ++ [now - st]))) eqn:E.
  - apply Nat.ltb_lt in E. rewrite length_app in E. simpl in E.
    destruct (processingTime m) as [|x l]; simpl in *; [lia|].
    rewrite length_app. simpl. lia.
  - apply Nat.ltb_ge in E. exact E.
Qed.

(** C7 (amended): [LipsyncPerformanceMonitor] keeps at most 100 timing
    samples over any run of its methods, [reset()] included, appending each
    new sample and dropping the oldest once 100 are held, and reports
    [errorRate] as [errors / (errors + successes)], 0 when both are 0;
    [LipsyncPerformanceOptimizer] has no cap: each [endTiming] appends one
    measurement, [reset()] empties them, and no other method removes any. *)
Theorem performanceMonitor_bounds :
  (forall ops, (List.length (processingTime (monitor_run monitor_init ops)) <= 100)%nat) /\
  (forall m st now, List.length (processingTime m) = 100%nat ->
     processingTime (endTiming m st now) = tl (processingTime m) ++ [now - st]) /\
  (forall m st now, (List.length (processingTime m) < 100)%nat ->
     processingTime (endTiming m st now) = processingTime m ++ [now - st]) /\
  (forall m, errorCount m = 0%nat -> successCount m = 0%nat ->
     ms_errorRate (getStats m) = Fin 0) /\
  (forall m, (0 < errorCount m + successCount m)%nat ->
     exists q, ms_errorRate (getStats m) = Fin q /\
       (q == inject_Z (Z.of_nat (errorCount m)) /
             inject_Z (Z.of_nat (errorCount m + successCount m)))%Q) /\
  (forall o st en label,
     List.length (measurements (o_endTiming o st en label)) = S (List.length (measurements o))) /\
  (forall o now, measurements (optimizer_step o (OReset now)) = []) /\
  (forall o op, (forall now, op <> OReset now) ->
     exists added, measurements (optimizer_step o op) = measurements o ++ added).
Proof.
  split; [|split; [|split; [|split; [|split; [|split; [|split]]]]]].
  - intro ops. unfold monitor_run. apply BlendingFacts.fold_left_inv; [|simpl; lia].
    intros m [|st now| |e now| |] _ Hm; simpl; try exact Hm; [apply endTiming_length, Hm|lia].
  - intros m st now H. unfold endTiming. simpl.
    rewrite length_app, H. simpl.
    destruct (processingTime m) as [|x l]; [discriminate|reflexivity].
  - intros m st now H. unfold endTiming. simpl.
    rewrite length_app. simpl.
    destruct (Nat.ltb 100 (List.length (processingTime m) + 1)) eqn:E; [|reflexivity].
    apply Nat.ltb_lt in E. lia.
  - intros m He Hs. unfold getStats, count_div. simpl. rewrite He, Hs. reflexivity.
  - intros m H. unfold getStats, count_div, or_zero. simpl.
    destruct (Nat.eqb (errorCount m + successCount m) 0) eqn:E;
      [apply Nat.eqb_eq in E; lia|].
    simpl. destruct (Qeq_bool _ 0) eqn:Ez.
    + apply Qeq_bool_iff in Ez. eexists. split; [reflexivity|]. rewrite Ez. reflexivity.
    + eexists. split; [reflexivity|]. reflexivity.
  - intros o st en label. unfold o_endTiming. simpl. rewrite length_app. simpl. lia.
  - intros o now. reflexivity.
  - intros o [|st en label| | | |now] Hop; simpl;
      try (exists []; rewrite app_nil_r; reflexivity).
    + eexists. reflexivity.
    + exfalso. exact (Hop now eq_refl).
Qed.

(** C7 counterexample: 101 calls of [endTiming] on a fresh
    [LipsyncPerformanceOptimizer] leave 101 measurements. *)
Lemma optimizer_history_unbounded :
  ~ (forall ops, (List.length (measurements (optimizer_run (optimizer_init 0) ops)) <= 100)%nat).
Proof.
  intro H. specialize (H (repeat (OEndTiming 0 1 "processing") 101)).
  vm_compute in H. lia.
Qed.

(** The optimiser's [errorRate] has no [|| 0]: with no error and no
    success it is NaN. *)
Lemma optimizer_errorRate_NaN : o_errorRate (optimizer_init 0) = NaN.
Proof. reflexivity. Qed.

End PerformanceFacts.

Module BlendingMoreFacts.
Import Blending BlendingMore BlendingF64.

Lemma frame_phases st fe lip h :
  simulateFrameUpdate st fe lip h = decay_phase lip (lipsync_phase h lip (expr_phase h fe st)).
Proof. reflexivity. Qed.

Lemma assoc_set_prop_other {A} t k (v : A) l :
  String.eqb t k = false -> assoc t (set_prop k v l) = assoc t l.
Proof.
  intro Htk. induction l as [|[k' v'] l IH]; simpl; [reflexivity|].
  destruct (String.eqb k k') eqn:E; simpl.
  - apply String.eqb_eq in E. subst k'. rewrite Htk. reflexivity.
  - rewrite IH. reflexivity.
Qed.

Lemma map_fst_set_prop {A} k (v : A) l : map fst (set_prop k v l) = map fst l.
Proof.
  induction l as [|[k' v'] l IH]; simpl; [reflexivity|].
  destruct (String.eqb k k'); simpl; [reflexivity|]. rewrite IH. reflexivity.
Qed.

Lemma applyMorphTarget_other st k v s t :
  String.eqb t k = false -> assoc t (applyMorphTarget st k v s) = assoc t st.
Proof.
  intro H. unfold applyMorphTarget. destruct (assoc k st); [|reflexivity].
  apply assoc_set_prop_other, H.
Qed.

Lemma applyMorphTarget_self st t v s :
  assoc t (applyMorphTarget st t v s) =
  option_map (fun c => js_add c (js_mul (js_sub (clamp01 v) c) s)) (assoc t st).
Proof.
  unfold applyMorphTarget. destruct (assoc t st) as [c|] eqn:E; simpl; [|exact E].
  eapply BlendingFacts.assoc_set_prop; exact E.
Qed.

Lemma fold_left_preserve {B} (f : store -> B -> store) l st t :
  (forall st' x, In x l -> assoc t (f st' x) = assoc t st') ->
  assoc t (fold_left f l st) = assoc t st.
Proof.
  intro H. apply (BlendingFacts.fold_left_inv (fun st' => assoc t st' = assoc t st)); [|reflexivity].
  intros a x Hx Ha. rewrite H by exact Hx. exact Ha.
Qed.

Lemma assoc_in {A} k (l : list (string * A)) v : assoc k l = Some v -> In v (map snd l).
Proof.
  induction l as [|[k' v'] l IH]; simpl; [discriminate|].
  destruct (String.eqb k k'); [intro H; injection H as <-; left; reflexivity|].
  intro H. right. apply IH, H.
Qed.

Lemma isVisemeTarget_in t : In t (map snd visemeMapping) -> isVisemeTarget t = true.
Proof.
  intro H. unfold isVisemeTarget. apply existsb_exists. exists t. split; [exact H|].
  apply String.eqb_refl.
Qed.

Lemma mapped_isViseme v t : assoc v visemeMapping = Some t -> isVisemeTarget t = true.
Proof. intro H. apply isVisemeTarget_in. eapply assoc_in; exact H. Qed.

Lemma neq_of_viseme t k : isVisemeTarget t = false -> isVisemeTarget k = true -> String.eqb t k = false.
Proof.
  intros Ht Hk. destruct (String.eqb t k) eqn:E; [|reflexivity].
  apply String.eqb_eq in E. subst. congruence.
Qed.

(** The lipsync and decay phases write viseme targets only. *)
Lemma lipsync_phase_other h lip st t :
  isVisemeTarget t = false -> assoc t (lipsync_phase h lip st) = assoc t st.
Proof.
  intro Ht. unfold lipsync_phase. destruct h, lip as [vis|]; try reflexivity.
  apply fold_left_preserve. intros st' [viseme value] _.
  destruct (assoc viseme visemeMapping) as [mt|] eqn:E; [|reflexivity].
  destruct (_ && _); [|reflexivity].
  apply applyMorphTarget_other. eapply neq_of_viseme; [exact Ht|]. eapply mapped_isViseme; exact E.
Qed.

Lemma decay_phase_other lip st t :
  isVisemeTarget t = false -> assoc t (decay_phase lip st) = assoc t st.
Proof.
  intro Ht. unfold decay_phase. apply fold_left_preserve. intros st' target Hin.
  destruct (existsb _ _); [reflexivity|].
  apply applyMorphTarget_other. apply neq_of_viseme; [exact Ht|].
  apply isVisemeTarget_in. apply filter_In in Hin as [Hin _]. exact Hin.
Qed.

Lemma expr_phase_eyeBlink h fe st t :
  t = "eyeBlinkLeft" \/ t = "eyeBlinkRight" -> assoc t (expr_phase h fe st) = assoc t st.
Proof.
  intro Ht. unfold expr_phase. destruct fe as [name|]; [|reflexivity].
  destruct (assoc name facialExpressions) as [mapping|]; [|reflexivity].
  apply fold_left_preserve. intros st' [key value] _.
  destruct (String.eqb key "eyeBlinkLeft" || String.eqb key "eyeBlinkRight") eqn:Eb; [reflexivity|].
  apply orb_false_iff in Eb as [E1 E2].
  assert (Htk : String.eqb t key = false).
  { destruct Ht as [->| ->]; rewrite String.eqb_sym; assumption. }
  destruct (isVisemeTarget key); apply applyMorphTarget_other; exact Htk.
Qed.



Lemma expr_phase_lipsync_free h1 h2 fe st t :
  isVisemeTarget t = false -> assoc t (expr_phase h1 fe st) = assoc t (expr_phase h2 fe st).
Proof.
  intro Ht. unfold expr_phase. destruct fe as [name|]; [|reflexivity].
  destruct (assoc name facialExpressions) as [mapping|]; [|reflexivity].
  assert (Hgen : forall st1 st2, assoc t st1 = assoc t st2 ->
    assoc t (fold_left (fun st '(key, value) =>
            if String.eqb key "eyeBlinkLeft" || String.eqb key "eyeBlinkRight" then st
            else if isVisemeTarget key then
              applyMorphTarget st key (js_mul value (if h1 then Fin (3#10) else Fin 1)) (Fin (1#10))
            else applyMorphTarget st key value (Fin (1#10))) mapping st1) =
    assoc t (fold_left (fun st '(key, value) =>
            if String.eqb key "eyeBlinkLeft" || String.eqb key "eyeBlinkRight" then st
            else if isVisemeTarget key then
              applyMorphTarget st key (js_mul value (if h2 then Fin (3#10) else Fin 1)) (Fin (1#10))
            else applyMorphTarget st key value (Fin (1#10))) mapping st2)).
  { induction mapping as [|[key value] mapping IH]; intros s1 s2 Hs; simpl; [exact Hs|].
    apply IH.
    destruct (_ || _); [exact Hs|].
    destruct (isVisemeTarget key) eqn:Ek.
    - rewrite !applyMorphTarget_other by (apply neq_of_viseme; assumption). exact Hs.
    - destruct (String.eqb t key) eqn:Etk.
      + apply String.eqb_eq in Etk. subst key. rewrite !applyMorphTarget_self, Hs. reflexivity.
      + rewrite !applyMorphTarget_other by exact Etk. exact Hs. }
  apply Hgen. reflexivity.
Qed.





Lemma applyMorphTarget_NaN_stays st k v s t :
  assoc t st = Some NaN -> assoc t (applyMorphTarget st k v s) = Some NaN.
Proof.
  intro H. destruct (String.eqb t k) eqn:E.
  - apply String.eqb_eq in E. subst k. rewrite applyMorphTarget_self, H. reflexivity.
  - rewrite applyMorphTarget_other by exact E. exact H.
Qed.



Lemma run_frames_app st frames fr :
  run_frames st (frames ++ [fr]) =
    simulateFrameUpdate (run_frames st frames) (fst (fst fr)) (snd (fst fr)) (snd fr).
Proof. unfold run_frames. rewrite fold_left_app. destruct fr as [[fe lip] has]. reflexivity. Qed.



Lemma qpow_le_one r n : (0 <= r <= 1)%Q -> (qpow r n <= 1)%Q.
Proof.
  intro H. induction n as [|n IH]; simpl; [lra|].
  assert (0 <= qpow r n)%Q by (clear IH; induction n; simpl; nra). nra.
Qed.








(** X1: a frame never changes the eye-blink targets. *)
Theorem simulateFrameUpdate_keeps_eyeBlink (st : store) (facialExpression : option string)
    (lipsyncVisemes : option (list (string * num))) (hasActiveLipsync : bool) :
  assoc "eyeBlinkLeft" (simulateFrameUpdate st facialExpression lipsyncVisemes hasActiveLipsync) =
    assoc "eyeBlinkLeft" st /\
  assoc "eyeBlinkRight" (simulateFrameUpdate st facialExpression lipsyncVisemes hasActiveLipsync) =
    assoc "eyeBlinkRight" st.
Proof.
  rewrite frame_phases.
  split; (rewrite decay_phase_other, lipsync_phase_other by reflexivity;
          apply expr_phase_eyeBlink; auto).
Qed.

(** X2: the targets that are not viseme targets end a frame with the same
    intensity whatever the lipsync arguments. *)
Theorem simulateFrameUpdate_lipsync_independent (st : store) (facialExpression : option string)
    (lip1 lip2 : option (list (string * num))) (h1 h2 : bool) (t : string)
    (Ht : isVisemeTarget t = false) :
  assoc t (simulateFrameUpdate st facialExpression lip1 h1) =
  assoc t (simulateFrameUpdate st facialExpression lip2 h2).
Proof.
  rewrite !frame_phases, !decay_phase_other, !lipsync_phase_other by exact Ht.
  apply expr_phase_lipsync_free, Ht.
Qed.

Lemma simulateFrameUpdate_lipsync_independent_witness :
  assoc "mouthSmileLeft" (simulateFrameUpdate initialMorphTargets (Some "smile")
                            (Some [("viseme_AA", Fin (8#10))]) true) =
  assoc "mouthSmileLeft" (simulateFrameUpdate initialMorphTargets (Some "smile") None false).
Proof.
  exact (simulateFrameUpdate_lipsync_independent initialMorphTargets (Some "smile")
           (Some [("viseme_AA", Fin (8#10))]) None true false "mouthSmileLeft" eq_refl).
Defined.





(** X5: for a target name that is not a member name inherited from
    [Object.prototype], [applyMorphTarget] never adds or removes a target,
    and changes no target other than the one it names. *)
Theorem applyMorphTarget_local (st : store) (target : string) (value lerpSpeed : num)
    (Hown : ~ In target ErrorHandlerMore.objectPrototypeNames) :
  map fst (applyMorphTarget st target value lerpSpeed) = map fst st /\
  (forall t, t <> target -> assoc t (applyMorphTarget st target value lerpSpeed) = assoc t st).
Proof.
  split.
  - unfold applyMorphTarget. destruct (assoc target st); [apply map_fst_set_prop|reflexivity].
  - intros t Ht. apply applyMorphTarget_other, String.eqb_neq, Ht.
Qed.

Lemma applyMorphTarget_local_witness :
  map fst (applyMorphTarget initialMorphTargets "viseme_AA" (Fin 1) (Fin (1#10))) =
    map fst initialMorphTargets.
Proof.
  exact (proj1 (applyMorphTarget_local initialMorphTargets "viseme_AA" (Fin 1) (Fin (1#10))
    ltac:(simpl; intuition discriminate))).
Defined.

(** X6: a target holding NaN holds NaN after every later write and every
    later frame, and [getMorphTargetValue] reads it as 0. *)
Theorem nan_target_sticks (st : store) (t : string) (H : assoc t st = Some NaN) :
  (forall k v s, assoc t (applyMorphTarget st k v s) = Some NaN) /\
  (forall fe lip h, assoc t (simulateFrameUpdate st fe lip h) = Some NaN) /\
  getMorphTargetValue st t = Fin 0.
Proof.
  split; [|split].
  - intros k v s. apply applyMorphTarget_NaN_stays, H.
  - intros fe lip h. rewrite frame_phases.
    assert (Hstep : forall (st' : store) (b : bool) k v s,
              assoc t st' = Some NaN ->
              assoc t (if b then st' else applyMorphTarget st' k v s) = Some NaN).
    { intros st' [] k v s Hs; [exact Hs|apply applyMorphTarget_NaN_stays, Hs]. }
    unfold decay_phase.
    apply (BlendingFacts.fold_left_inv (fun s => assoc t s = Some NaN)).
    { intros a x _ Ha. apply Hstep, Ha. }
    unfold lipsync_phase. destruct h, lip as [vis|]; try (unfold expr_phase).
    1: apply (BlendingFacts.fold_left_inv (fun s => assoc t s = Some NaN));
       [intros a [viseme value] _ Ha; destruct (assoc viseme visemeMapping); [|exact Ha];
        destruct (_ && _); [apply applyMorphTarget_NaN_stays, Ha|exact Ha]|].
    all: unfold expr_phase; destruct fe as [name|]; [|exact H];
         destruct (assoc name facialExpressions) as [mapping|]; [|exact H];
         apply (BlendingFacts.fold_left_inv (fun s => assoc t s = Some NaN)); [|exact H];
         intros a [key value] _ Ha; destruct (_ || _); [exact Ha|];
         destruct (isVisemeTarget key); apply applyMorphTarget_NaN_stays, Ha.
  - unfold getMorphTargetValue. rewrite H. reflexivity.
Qed.

Lemma nan_target_sticks_witness :
  assoc "viseme_AA" (simulateFrameUpdate
     (applyMorphTarget initialMorphTargets "viseme_AA" NaN (Fin (1#10)))
     (Some "smile") (Some [("viseme_AA", Fin (8#10))]) true) = Some NaN.
Proof.
  exact (proj1 (proj2 (nan_target_sticks
     (applyMorphTarget initialMorphTargets "viseme_AA" NaN (Fin (1#10))) "viseme_AA" eq_refl))
     (Some "smile") (Some [("viseme_AA", Fin (8#10))]) true).
Defined.

End BlendingMoreFacts.

Module ErrorHandlerMoreFacts.
Import ErrorHandler ErrorHandlerMore.

Lemma prefix_refl p : String.prefix p p = true.
Proof.
  induction p as [|c p IH]; simpl; [reflexivity|].
  destruct (ascii_dec c c) as [_|n]; [exact IH|contradiction n; reflexivity].
Qed.

Lemma prefix_app p s b : String.prefix p s = true -> String.prefix p (String.append s b) = true.
Proof.
  revert p. induction s as [|c' s IH]; intros p H.
  - destruct p; [destruct b; reflexivity|discriminate].
  - destruct p as [|c p]; [reflexivity|]. simpl in H |- *.
    destruct (ascii_dec c c'); [apply IH, H|discriminate].
Qed.

Lemma prefix_app_inv p q s :
  String.prefix (String.append p q) s = true -> String.prefix p s = true.
Proof.
  revert p. induction s as [|c' s IH]; intros p H.
  - destruct p; [reflexivity|discriminate].
  - destruct p as [|c p]; [reflexivity|]. simpl in H |- *.
    destruct (ascii_dec c c'); [apply (IH _ H)|discriminate].
Qed.

Lemma prefix_cancel a b c :
  String.prefix (String.append a b) (String.append a c) = String.prefix b c.
Proof.
  induction a as [|x a IH]; [reflexivity|]. simpl.
  destruct (ascii_dec x x) as [_|n]; [exact IH|contradiction n; reflexivity].
Qed.

Lemma prefix_append p s : String.prefix p (String.append p s) = true.
Proof. apply prefix_app, prefix_refl. Qed.

Lemma includes_prefix s p : String.prefix p s = true -> includes s p = true.
Proof. intro H. destruct s; cbn [includes]; rewrite H; reflexivity. Qed.

Lemma includes_append_l a s p : includes s p = true -> includes (String.append a s) p = true.
Proof.
  intro H. induction a as [|c a IH]; simpl; [exact H|]. rewrite IH. apply orb_true_r.
Qed.

Lemma includes_append_r s b p : includes s p = true -> includes (String.append s b) p = true.
Proof.
  induction s as [|c s IH]; intro H.
  - destruct p; [destruct b; reflexivity|discriminate].
  - cbn [includes String.append] in H |- *. apply orb_true_iff in H as [H|H].
    + apply orb_true_iff. left. exact (prefix_app p (String c s) b H).
    + rewrite (IH H). apply orb_true_r.
Qed.

Lemma append_assoc' a b c :
  String.append (String.append a b) c = String.append a (String.append b c).
Proof. induction a as [|x a IH]; simpl; [reflexivity|rewrite IH; reflexivity]. Qed.

Lemma includes_suffix a p : includes (String.append a p) p = true.
Proof. apply includes_append_l, includes_prefix, prefix_refl. Qed.

(** X7: [logLipsyncError] throws on a null error; otherwise its first
    [console.error] line starts with the timestamp in brackets, contains
    "Lipsync Error (<kind>): <message>" with the kind [categorizeError]
    gives, and the context when one is given; a second call printing the
    stack is made exactly in development with a non-empty stack. *)
Theorem logLipsyncError_lines (NODE_ENV timestamp context : string) :
  logLipsyncError NODE_ENV timestamp None context = None /\
  forall (e : jsError) (stack : option string),
    exists line rest,
      logLipsyncError NODE_ENV timestamp (Some (e, stack)) context = Some ([line] :: rest) /\
      String.prefix (String.append "[" (String.append timestamp "]")) line = true /\
      includes line (String.append "] Lipsync Error ("
                      (String.append (LIPSYNC_ERROR_TYPES (categorizeError (Some e)))
                        (String.append "): " (template (message e))))) = true /\
      (context <> "" -> includes line (String.append " | Context: " context) = true) /\
      ((exists s, stack = Some s /\ s <> "" /\ NODE_ENV = "development" /\
                  rest = [["Stack trace:"; s]]) \/
       (rest = [] /\ forall s, stack = Some s -> s <> "" -> NODE_ENV <> "development")).
Proof.
  split; [reflexivity|]. intros e stack.
  set (X := String.append "] Lipsync Error ("
              (String.append (LIPSYNC_ERROR_TYPES (categorizeError (Some e)))
                 (String.append "): " (template (message e))))).
  set (logMessage := String.append "[" (String.append timestamp X)).
  assert (Hpre : String.prefix (String.append "[" (String.append timestamp "]")) logMessage = true).
  { unfold logMessage, X. rewrite !prefix_cancel. reflexivity. }
  assert (Hinc : includes logMessage X = true).
  { unfold logMessage. apply includes_append_l, includes_append_l, includes_prefix, prefix_refl. }
  exists (if Blending.truthy_string context
          then String.append logMessage (String.append " | Context: " context) else logMessage).
  exists (match stack with
          | Some s => if String.eqb NODE_ENV "development" && Blending.truthy_string s
                      then [["Stack trace:"; s]] else []
          | None => [] end).
  split; [unfold logLipsyncError; destruct (Blending.truthy_string context); reflexivity|].
  split; [|split; [|split]].
  - destruct (Blending.truthy_string context); [apply prefix_app|]; exact Hpre.
  - destruct (Blending.truthy_string context); [apply includes_append_r|]; exact Hinc.
  - intro Hc. unfold Blending.truthy_string.
    destruct (String.eqb context "") eqn:E; [apply String.eqb_eq in E; contradiction|].
    apply includes_suffix.
  - destruct stack as [s|].
    + unfold Blending.truthy_string.
      destruct (String.eqb NODE_ENV "development") eqn:En, (String.eqb s "") eqn:Es; simpl.
      * right. split; [reflexivity|]. intros s' Hs' Hne. injection Hs' as <-.
        apply String.eqb_eq in Es. contradiction.
      * left. exists s. apply String.eqb_eq in En. apply String.eqb_neq in Es. auto.
      * right. split; [reflexivity|]. intros s' Hs' Hne. injection Hs' as <-.
        apply String.eqb_eq in Es. contradiction.
      * right. split; [reflexivity|]. intros s' _ _. apply String.eqb_neq, En.
    + right. split; [reflexivity|]. intros s' Hs'. discriminate.
Qed.

(** X8: for every error-kind string that is not a member name inherited from
    [Object.prototype], [getRecoveryStrategy] returns a strategy with at most
    3 retries, a delay of at most 5000 ms and, when it has a fallback
    configuration, an fftSize of at most 512 and a historySize of at most 4;
    a string that is none of the six kinds gets the unknown-error strategy. *)
Theorem getRecoveryStrategy_bounded (errorType : string)
    (Hown : ~ In errorType objectPrototypeNames) :
  (maxRetries (getRecoveryStrategy errorType) <= 3)%nat /\
  (delay (getRecoveryStrategy errorType) <= 5000)%nat /\
  (forall f h, fallbackConfig (getRecoveryStrategy errorType) = Some (f, h) ->
     (f <= 512)%nat /\ (h <= 4)%nat) /\
  ((forall t, errorType <> LIPSYNC_ERROR_TYPES t) ->
     getRecoveryStrategy errorType = unknownStrategy).
Proof.
  clear Hown.
  assert (Hall : Forall (fun kv => (maxRetries (snd kv) <= 3)%nat /\ (delay (snd kv) <= 5000)%nat /\
                   (forall f h, fallbackConfig (snd kv) = Some (f, h) ->
                      (f <= 512)%nat /\ (h <= 4)%nat)) strategies).
  { apply Forall_forall. intros [k st] Hin. simpl in Hin.
    repeat (destruct Hin as [Hin|Hin];
            [injection Hin as <- <-; cbn [snd delay maxRetries fallbackConfig unknownStrategy];
             (split; [lia|split; [lia|]]); intros f h Hf;
             first [discriminate Hf | injection Hf as <- <-; lia]|]).
    destruct Hin. }
  split; [|split; [|split]].
  1-3: unfold getRecoveryStrategy; destruct (assoc errorType strategies) as [st|] eqn:E;
    [ pose proof (BlendingFacts.assoc_Forall (fun st => (maxRetries st <= 3)%nat /\
                   (delay st <= 5000)%nat /\
                   (forall f h, fallbackConfig st = Some (f, h) -> (f <= 512)%nat /\ (h <= 4)%nat))
                   _ _ _ Hall E) as Hst; simpl in Hst; tauto
    | simpl; try lia; intros f h Hf; injection Hf as <- <-; lia ].
  intro Hnot. unfold getRecoveryStrategy.
  replace (assoc errorType strategies) with (@None strategy); [reflexivity|].
  unfold strategies, LIPSYNC_ERROR_TYPES. cbn [assoc].
  repeat match goal with
  | |- context [String.eqb errorType ?s] =>
      let E := fresh "E" in
      destruct (String.eqb errorType s) eqn:E;
      [apply String.eqb_eq in E; exfalso;
       first [ exact (Hnot INITIALIZATION_FAILED E) | exact (Hnot AUDIO_CONNECTION_FAILED E)
             | exact (Hnot PROCESSING_ERROR E) | exact (Hnot CONTEXT_ERROR E)
             | exact (Hnot BROWSER_UNSUPPORTED E) | exact (Hnot UNKNOWN_ERROR E) ]|]
  end.
  reflexivity.
Qed.

Lemma getRecoveryStrategy_bounded_witness :
  ~ In "timeout" objectPrototypeNames /\ getRecoveryStrategy "timeout" = unknownStrategy.
Proof.
  assert (H : ~ In "timeout" objectPrototypeNames).
  { intro Hin. simpl in Hin. repeat (destruct Hin as [Hin|Hin]; [discriminate Hin|]). exact Hin. }
  split; [exact H|].
  apply (getRecoveryStrategy_bounded "timeout" H).
  intros [] E; discriminate E.
Defined.


(** X9: whatever the environment, [detectBrowserSupport()] reports a browser
    as supported exactly when it lists no missing feature; the missing
    features are distinct and drawn from the two audio requirements and
    "Browser detection failed". *)
Theorem detectBrowserSupport_missing_consistent (e : env) :
  exists r, detectBrowserSupport e = Some r /\
    (isSupported r = true <-> missingFeatures r = []) /\
    NoDup (missingFeatures r) /\
    incl (missingFeatures r) [webAudioAPI; mediaStream; "Browser detection failed"].
Proof.
  destruct (ErrorHandlerFacts.detect_result e) as [r [Hr [Hs [Hm _]]]].
  exists r. split; [exact Hr|]. rewrite Hs, Hm, ErrorHandlerFacts.probe_raises_spec.
  unfold primitive_missing.
  destruct e as [[[ac wk ms th]|] [ua|]]; [destruct ac, wk, ms| destruct ac, wk, ms | |];
    cbn;
    (split; [split; intro H; first [reflexivity | discriminate H]|]);
    (split; [repeat constructor; intro Hin; simpl in Hin; intuition discriminate|]);
    intros x Hx; simpl in Hx |- *; tauto.
Qed.

Lemma ua_checks_exact ua s :
  ua_checks ua s =
    ({| isSupported := isSupported s; missingFeatures := missingFeatures s;
        warnings := warnings s ++ ua_warnings ua |}, Some tt).
Proof.
  destruct s as [sup mf ws].
  unfold ua_checks, ua_warnings, bind, when, push_warning, modify, ret.
  destruct (includes ua "safari" && negb (includes ua "chrome")), (mobile_test ua),
    (includes ua "firefox"), (firefox_match ua) as [v|];
    try destruct (Nat.ltb (parseInt_digits v) 60);
    cbn; rewrite <- ?app_assoc; rewrite ?app_nil_r; reflexivity.
Qed.

Lemma detect_warnings e :
  exists r, detectBrowserSupport e = Some r /\
    warnings r =
      (match window e with
       | Some w => if (AudioContext w || webkitAudioContext w) && analyserProbeThrows w
                   then ["AnalyserNode creation failed"] else []
       | None => [] end) ++
      (match window e, userAgent e with
       | Some _, Some ua => ua_warnings (toLowerCase ua)
       | _, _ => [] end).
Proof.
  destruct e as [[[ac wk ms th]|] [ua|]];
    unfold detectBrowserSupport, detectBrowserSupport_M, detect_body, try_catch, bind; cbn.
  - destruct ac, wk, ms, th; cbn; rewrite ua_checks_exact; cbn;
      eexists; (split; [reflexivity|]); reflexivity.
  - destruct ac, wk, ms, th; cbn; eexists; (split; [reflexivity|]); reflexivity.
  - eexists; (split; [reflexivity|]); reflexivity.
  - eexists; (split; [reflexivity|]); reflexivity.
Qed.

Lemma firefox_match_includes u v : firefox_match u = Some v -> includes u "firefox" = true.
Proof.
  induction u as [|c u IH]; intro H; [discriminate|].
  cbn [firefox_match] in H.
  destruct (String.prefix "firefox/" (String c u)) eqn:Ep.
  - apply includes_prefix. change "firefox/" with (String.append "firefox" "/") in Ep.
    exact (prefix_app_inv _ _ _ Ep).
  - cbn [includes]. apply orb_true_iff. right. apply IH, H.
Qed.

Lemma ua_warnings_firefox u :
  In "Firefox version may be too old for optimal support" (ua_warnings u) <->
  exists v, firefox_match u = Some v /\ (parseInt_digits v < 60)%nat.
Proof.
  unfold ua_warnings. rewrite !in_app_iff.
  split.
  - intros [H|[H|H]].
    + destruct (_ && _); simpl in H; [destruct H as [H|[]]; discriminate H|destruct H].
    + destruct (mobile_test u); simpl in H; [destruct H as [H|[]]; discriminate H|destruct H].
    + destruct (includes u "firefox"); [|destruct H].
      destruct (firefox_match u) as [v|]; [|destruct H].
      destruct (Nat.ltb (parseInt_digits v) 60) eqn:E; [|destruct H].
      exists v. split; [reflexivity|]. apply Nat.ltb_lt, E.
  - intros [v [Hv Hlt]]. right. right.
    rewrite (firefox_match_includes u v Hv), Hv.
    apply Nat.ltb_lt in Hlt. rewrite Hlt. left. reflexivity.
Qed.

(** X10: [detectBrowserSupport()] warns that the Firefox version may be too
    old exactly when [window] and the user agent are present and the lower-
    cased user agent matches /firefox\/(\d+)/ with a version below 60. *)
Theorem detectBrowserSupport_firefox_warning (e : env) :
  exists r, detectBrowserSupport e = Some r /\
    (In "Firefox version may be too old for optimal support" (warnings r) <->
     exists w ua v, window e = Some w /\ userAgent e = Some ua /\
       firefox_match (toLowerCase ua) = Some v /\ (parseInt_digits v < 60)%nat).
Proof.
  destruct (detect_warnings e) as [r [Hr Hw]]. exists r. split; [exact Hr|].
  rewrite Hw, in_app_iff.
  assert (Ha : forall w, ~ In "Firefox version may be too old for optimal support"
                 (if (AudioContext w || webkitAudioContext w) && analyserProbeThrows w
                  then ["AnalyserNode creation failed"] else [])).
  { intros w H. destruct (_ && _); simpl in H; [destruct H as [H|[]]; discriminate H|exact H]. }
  destruct e as [[w|] [ua|]]; cbn [window userAgent].
  - rewrite ua_warnings_firefox. split.
    + intros [H|[v Hv]]; [destruct (Ha w H)|]. exists w, ua, v. auto.
    + intros (w' & ua' & v & _ & Hu & Hv & Hlt). injection Hu as <-. right. exists v. auto.
  - split; [intros [H|[]]; destruct (Ha w H)|intros (? & ? & ? & _ & Hu & _); discriminate Hu].
  - split; [intros [[]|[]]|intros (? & ? & ? & Hw' & _); discriminate Hw'].
  - split; [intros [[]|[]]|intros (? & ? & ? & Hw' & _); discriminate Hw'].
Qed.

Lemma skipn_S_tl {A} m (l : list A) : skipn (S m) l = tl (skipn m l).
Proof.
  revert l. induction m as [|m IH]; intros [|a l]; try reflexivity.
  simpl. rewrite <- IH. reflexivity.
Qed.

Lemma lastn_snoc {A} n (X : list A) d :
  lastn n (X ++ [d]) =
    (if Nat.ltb n (List.length (lastn n X ++ [d])) then tl (lastn n X ++ [d])
     else lastn n X ++ [d]).
Proof.
  unfold lastn. rewrite !length_app, length_skipn. cbn [List.length].
  destruct (Nat.le_gt_cases n (List.length X)) as [Hle|Hgt].
  - replace (List.length X - (List.length X - n))%nat with n by lia.
    replace (Nat.ltb n (n + 1)) with true by (symmetry; apply Nat.ltb_lt; lia).
    destruct n as [|n].
    + rewrite !Nat.sub_0_r, skipn_all. simpl.
      apply skipn_all2. rewrite length_app. simpl. lia.
    + replace (List.length X + 1 - S n)%nat with (S (List.length X - S n)) by lia.
      rewrite skipn_app, skipn_S_tl.
      replace (S (List.length X - S n) - List.length X)%nat with 0%nat by lia.
      destruct (skipn (List.length X - S n) X) as [|a l] eqn:E; [|reflexivity].
      apply (f_equal (@List.length A)) in E. rewrite length_skipn in E. simpl in E. lia.
  - replace (List.length X - n)%nat with 0%nat by lia.
    replace (List.length X + 1 - n)%nat with 0%nat by lia.
    rewrite Nat.sub_0_r.
    replace (Nat.ltb n (List.length X + 1)) with false by (symmetry; apply Nat.ltb_ge; lia).
    reflexivity.
Qed.

Lemma monitor_run_since_reset_gen ops acc m :
  m = monitor_run monitor_init acc ->
  monitor_run m ops =
    monitor_run monitor_init (fold_left (fun acc op => if is_reset op then [] else acc ++ [op]) ops acc).
Proof.
  revert acc m. induction ops as [|op ops IH]; intros acc m ->; [reflexivity|].
  cbn [fold_left]. unfold monitor_run at 1. cbn [fold_left]. apply IH.
  destruct op; cbn [is_reset]; try reflexivity;
    unfold monitor_run; rewrite fold_left_app; reflexivity.
Qed.

Lemma monitor_run_since_reset ops :
  monitor_run monitor_init ops = monitor_run monitor_init (since_reset ops).
Proof. apply monitor_run_since_reset_gen. reflexivity. Qed.

Lemma since_reset_free ops : reset_free (since_reset ops) = true.
Proof.
  unfold since_reset.
  assert (G : forall acc, reset_free acc = true ->
             reset_free (fold_left (fun acc op => if is_reset op then [] else acc ++ [op]) ops acc) = true).
  { induction ops as [|op ops IH]; intros acc Hacc; [exact Hacc|].
    cbn [fold_left]. apply IH. destruct (is_reset op) eqn:E; [reflexivity|].
    unfold reset_free in *. rewrite forallb_app, Hacc. simpl. rewrite E. reflexivity. }
  apply G. reflexivity.
Qed.

Lemma monitor_run_processingTime m ops X :
  reset_free ops = true ->
  processingTime m = lastn 100 X ->
  processingTime (monitor_run m ops) = lastn 100 (X ++ durations ops).
Proof.
  revert m X. induction ops as [|op ops IH]; intros m X Hr Hm.
  - simpl. rewrite app_nil_r. exact Hm.
  - unfold reset_free in Hr. cbn [forallb] in Hr. apply andb_true_iff in Hr as [Hop Hr].
    simpl. destruct op as [|st now| |err now| |]; cbn [durations flat_map monitor_step];
      try (apply IH; [exact Hr|exact Hm]); [|discriminate Hop].
    rewrite app_assoc. apply IH; [exact Hr|].
    unfold endTiming. cbn [processingTime]. rewrite Hm, lastn_snoc. reflexivity.
Qed.

(** X11: after any run of its methods, [LipsyncPerformanceMonitor] holds
    exactly the last 100 durations measured by [endTiming] since the last
    [reset()] (since its construction if there was none), oldest first. *)
Theorem monitor_processingTime_window (ops : list monitorOp) :
  processingTime (monitor_run monitor_init ops) = lastn 100 (durations (since_reset ops)).
Proof.
  rewrite monitor_run_since_reset.
  apply (monitor_run_processingTime monitor_init (since_reset ops) []);
    [apply since_reset_free|reflexivity].
Qed.

Lemma monitor_run_counts m ops :
  reset_free ops = true ->
  errorCount (monitor_run m ops) = (errorCount m + List.length (filter is_error ops))%nat /\
  successCount (monitor_run m ops) = (successCount m + List.length (filter is_success ops))%nat.
Proof.
  revert m. induction ops as [|op ops IH]; intros m Hr; [simpl; lia|].
  unfold reset_free in Hr. cbn [forallb] in Hr. apply andb_true_iff in Hr as [Hop Hr].
  simpl. destruct (IH (monitor_step m op) Hr) as [H1 H2]. rewrite H1, H2.
  destruct op; cbn in *; try lia; discriminate Hop.
Qed.

Lemma monitor_run_lastError m ops (acc : option (jsError * Q)) :
  reset_free ops = true ->
  lastError m = match acc with
                | Some (e, now) => Some {| le_message := message e; le_timestamp := now;
                                           le_type := categorizeError (Some e) |}
                | None => None end ->
  lastError (monitor_run m ops) =
    match fold_left (fun acc op => match op with MRecordError e now => Some (e, now) | _ => acc end)
            ops acc with
    | Some (e, now) => Some {| le_message := message e; le_timestamp := now;
                               le_type := categorizeError (Some e) |}
    | None => None end.
Proof.
  revert m acc. induction ops as [|op ops IH]; intros m acc Hr Hm; [exact Hm|].
  unfold reset_free in Hr. cbn [forallb] in Hr. apply andb_true_iff in Hr as [Hop Hr].
  simpl. apply IH; [exact Hr|]. destruct op; try exact Hm; try reflexivity. discriminate Hop.
Qed.

Lemma getStats_errorRate_bounds m :
  exists q, ms_errorRate (getStats m) = Fin q /\ (0 <= q <= 1)%Q.
Proof.
  unfold getStats, count_div, or_zero. cbn [ms_errorRate].
  destruct (Nat.eqb (errorCount m + successCount m) 0) eqn:E.
  - exists 0. split; [reflexivity|]. lra.
  - apply Nat.eqb_neq in E.
    set (q := inject_Z (Z.of_nat (errorCount m)) /
              inject_Z (Z.of_nat (errorCount m + successCount m))).
    assert (Hpos : 0 < inject_Z (Z.of_nat (errorCount m + successCount m))).
    { change 0 with (inject_Z 0). rewrite <- Zlt_Qlt. lia. }
    assert (Hq : 0 <= q <= 1).
    { unfold q. split.
      - apply Qle_shift_div_l; [exact Hpos|]. rewrite Qmult_0_l.
        change 0 with (inject_Z 0). rewrite <- Zle_Qle. lia.
      - apply Qle_shift_div_r; [exact Hpos|]. rewrite Qmult_1_l.
        rewrite <- Zle_Qle. lia. }
    cbn [falsy_num]. destruct (Qeq_bool q 0).
    + exists 0. split; [reflexivity|]. lra.
    + exists q. split; [reflexivity|exact Hq].
Qed.

(** X12: over any run of its methods, [LipsyncPerformanceMonitor] counts one
    error per [recordError] call and one success per [recordSuccess] call
    made since the last [reset()] (since its construction if there was
    none), reports an [errorRate] between 0 and 1, and its [lastError] is
    the message, time and [categorizeError] kind of the last [recordError]
    call since then, or null when there was none. *)
Theorem monitor_counters (ops : list monitorOp) :
  errorCount (monitor_run monitor_init ops) = List.length (filter is_error (since_reset ops)) /\
  successCount (monitor_run monitor_init ops) = List.length (filter is_success (since_reset ops)) /\
  (exists q, ms_errorRate (getStats (monitor_run monitor_init ops)) = Fin q /\ (0 <= q <= 1)%Q) /\
  lastError (monitor_run monitor_init ops) =
    match last_error (since_reset ops) with
    | Some (e, now) => Some {| le_message := message e; le_timestamp := now;
                               le_type := categorizeError (Some e) |}
    | None => None end.
Proof.
  rewrite monitor_run_since_reset.
  destruct (monitor_run_counts monitor_init (since_reset ops) (since_reset_free ops)) as [H1 H2].
  split; [exact H1|]. split; [exact H2|]. split; [apply getStats_errorRate_bounds|].
  apply (monitor_run_lastError monitor_init (since_reset ops) None (since_reset_free ops)).
  reflexivity.
Qed.

End ErrorHandlerMoreFacts.

Module OptimizationMoreFacts.
Import Optimization OptimizationMore.

Lemma fold_Qmax'_spec ts acc :
  acc <= fold_left Qmax' ts acc /\ Forall (fun t => t <= fold_left Qmax' ts acc) ts /\
  In (fold_left Qmax' ts acc) (acc :: ts).
Proof.
  revert acc. induction ts as [|t ts IH]; intro acc; simpl.
  - split; [apply Qle_refl|]. split; [constructor|left; reflexivity].
  - destruct (IH (Qmax' acc t)) as [H1 [H2 H3]].
    assert (Hm : acc <= Qmax' acc t /\ t <= Qmax' acc t /\ (Qmax' acc t = acc \/ Qmax' acc t = t)).
    { unfold Qmax'. BlendingFacts.qle_cases; split; try lra; split; try lra; auto. }
    destruct Hm as [Ha [Ht He]].
    split; [lra|]. split; [constructor; [lra|exact H2]|].
    destruct H3 as [H3|H3]; [|right; right; exact H3].
    rewrite <- H3. destruct He as [E|E]; rewrite E; [left|right; left]; reflexivity.
Qed.

Lemma fold_Qmin'_spec ts acc :
  fold_left Qmin' ts acc <= acc /\ Forall (fun t => fold_left Qmin' ts acc <= t) ts /\
  In (fold_left Qmin' ts acc) (acc :: ts).
Proof.
  revert acc. induction ts as [|t ts IH]; intro acc; simpl.
  - split; [apply Qle_refl|]. split; [constructor|left; reflexivity].
  - destruct (IH (Qmin' acc t)) as [H1 [H2 H3]].
    assert (Hm : Qmin' acc t <= acc /\ Qmin' acc t <= t /\ (Qmin' acc t = acc \/ Qmin' acc t = t)).
    { unfold Qmin'. BlendingFacts.qle_cases; split; try lra; split; try lra; auto. }
    destruct Hm as [Ha [Ht He]].
    split; [lra|]. split; [constructor; [lra|exact H2]|].
    destruct H3 as [H3|H3]; [|right; right; exact H3].
    rewrite <- H3. destruct He as [E|E]; rewrite E; [left|right; left]; reflexivity.
Qed.

Lemma inject_succ n : inject_Z (Z.of_nat (S n)) == inject_Z (Z.of_nat n) + 1.
Proof. replace (Z.of_nat (S n)) with (Z.of_nat n + 1)%Z by lia. rewrite inject_Z_plus. reflexivity. Qed.

Lemma fold_sum_bounds lo hi l acc :
  Forall (fun t => lo <= t <= hi) l ->
  acc + lo * inject_Z (Z.of_nat (List.length l)) <= fold_left (fun sum t => sum + t) l acc /\
  fold_left (fun sum t => sum + t) l acc <= acc + hi * inject_Z (Z.of_nat (List.length l)).
Proof.
  revert acc. induction l as [|t l IH]; intros acc Hf; cbn [fold_left List.length].
  - split; rewrite Qmult_0_r, Qplus_0_r; apply Qle_refl.
  - inversion Hf as [|? ? [Hlo Hhi] Hf']; subst.
    destruct (IH (acc + t) Hf') as [H1 H2].
    rewrite inject_succ. split; lra.
Qed.

(** X14: [getStats()] reports 0 for the average, maximum and minimum
    processing time when no measurement's operation contains "processing";
    otherwise the maximum and the minimum are two of the processing times
    and every processing time lies between them. *)
Theorem getStats_processing_bounds (o : optimizer) (memoryBaseline currentMemory : option Q)
    (now : Q) :
  let stats := o_getStats o memoryBaseline currentMemory now in
  (processingTimes o = [] ->
     s_averageProcessingTime stats = 0 /\ maxProcessingTime stats = 0 /\
     minProcessingTime stats = 0) /\
  (processingTimes o <> [] ->
     (forall t, In t (processingTimes o) -> minProcessingTime stats <= t <= maxProcessingTime stats) /\
     In (maxProcessingTime stats) (processingTimes o) /\
     In (minProcessingTime stats) (processingTimes o)).
Proof.
  intro stats. unfold stats, o_getStats. cbn [s_averageProcessingTime maxProcessingTime
    minProcessingTime].
  destruct (processingTimes o) as [|t ts] eqn:Ep.
  - split; [intros _; split; [reflexivity|split; reflexivity]|intro H; contradiction H; reflexivity].
  - split; [intro H; discriminate H|intros _].
    unfold maxOf, minOf.
    destruct (fold_Qmax'_spec ts t) as [Ma [Mall Min]].
    destruct (fold_Qmin'_spec ts t) as [ma [mall min]].
    set (M := fold_left Qmax' ts t) in *. set (m := fold_left Qmin' ts t) in *.
    split; [|split; assumption].
    intros x [<-|Hx]; [split; assumption|].
    split; [exact (proj1 (Forall_forall _ _) mall x Hx)|exact (proj1 (Forall_forall _ _) Mall x Hx)].
Qed.


(** X15: while no success or error has been recorded, [errorRate] is NaN, so
    [isPerformanceHealthy()] is false whatever the timings, and
    [getOptimizationRecommendations()] never reports a high error rate. *)
Theorem isPerformanceHealthy_needs_outcome (o : optimizer) (memoryBaseline currentMemory : option Q)
    (now : Q) (H : (o_errorCount o + o_successCount o = 0)%nat) :
  s_errorRate (o_getStats o memoryBaseline currentMemory now) = NaN /\
  isPerformanceHealthy o memoryBaseline currentMemory now = false /\
  ~ In highErrorRate (getOptimizationRecommendations o memoryBaseline currentMemory now).
Proof.
  assert (Hn : ErrorHandler.count_div (o_errorCount o) (o_successCount o) = NaN).
  { unfold ErrorHandler.count_div. rewrite H. reflexivity. }
  split; [exact Hn|]. split.
  - unfold isPerformanceHealthy. rewrite Hn. apply andb_false_r.
  - unfold getOptimizationRecommendations. cbn [s_averageProcessingTime memoryIncrease
      s_averageFPS s_errorRate o_getStats]. rewrite Hn. cbn [js_gt]. rewrite app_nil_r.
    rewrite !in_app_iff.
    intros [Hi|[Hi|Hi]];
      match type of Hi with In _ (if ?b then _ else _) => destruct b end;
      first [destruct Hi as [Hi|[]]; discriminate Hi | destruct Hi].
Qed.

Lemma isPerformanceHealthy_needs_outcome_witness :
  isPerformanceHealthy (optimizer_init 0) None None 1000 = false.
Proof.
  exact (proj1 (proj2 (isPerformanceHealthy_needs_outcome (optimizer_init 0) None None 1000 eq_refl))).
Defined.

(** X16: an optimiser that [isPerformanceHealthy()] finds healthy gets no
    recommendation from [getOptimizationRecommendations()] at the same
    clock and memory readings. *)
Theorem healthy_no_recommendations (o : optimizer) (memoryBaseline currentMemory : option Q)
    (now : Q) (H : isPerformanceHealthy o memoryBaseline currentMemory now = true) :
  getOptimizationRecommendations o memoryBaseline currentMemory now = [].
Proof.
  unfold isPerformanceHealthy in H. rewrite !andb_true_iff in H.
  destruct H as [[[Hp Hm] Hf] He].
  unfold getOptimizationRecommendations, o_getStats.
  cbn [s_averageProcessingTime memoryIncrease s_averageFPS s_errorRate].
  unfold Qltb in *. apply negb_true_iff in Hp, Hm. apply BlendingFacts.Qle_bool_false in Hp, Hm.
  replace (Qle_bool (averageOf (processingTimes o)) MAX_PROCESSING_TIME) with true
    by (symmetry; apply Qle_bool_iff; lra).
  replace (Qle_bool (memoryIncreaseOf memoryBaseline currentMemory) MAX_MEMORY_INCREASE) with true
    by (symmetry; apply Qle_bool_iff; lra).
  cbn [negb app].
  replace (dnum_lt (fps_div (o_frameCount o) ((now - o_startTime o) / 1000)) (TARGET_FPS * (8 # 10)))
    with false.
  2:{ destruct (fps_div _ _) as [q| |]; cbn [dnum_gt dnum_lt] in Hf |- *; try reflexivity.
      unfold Qltb in *. apply negb_true_iff in Hf. apply BlendingFacts.Qle_bool_false in Hf.
      unfold TARGET_FPS in *. symmetry. apply negb_false_iff, Qle_bool_iff. lra. }
  cbn [app].
  destruct (ErrorHandler.count_div _ _) as [q|]; cbn [js_lt js_gt] in He |- *; [|discriminate He].
  unfold Qltb in *. apply negb_true_iff in He. apply BlendingFacts.Qle_bool_false in He.
  replace (Qle_bool q ERROR_THRESHOLD) with true by (symmetry; apply Qle_bool_iff; lra).
  reflexivity.
Qed.

Lemma healthy_no_recommendations_witness :
  getOptimizationRecommendations
    (optimizer_run (optimizer_init 0) (ORecordSuccess :: repeat (OEndTiming 0 (1#2) "processing") 60))
    None None 1000 = [].
Proof.
  apply healthy_no_recommendations. vm_compute. reflexivity.
Defined.

Lemma filter_negb_length {A} (f : A -> bool) l :
  (List.length (filter f l) + List.length (filter (fun x => negb (f x)) l))%nat = List.length l.
Proof. induction l as [|x l IH]; simpl; [reflexivity|]. destruct (f x); simpl; lia. Qed.

Lemma processingTimes_record o :
  processingTimes (o_recordSuccess o) = processingTimes o /\
  processingTimes (o_recordError o) = processingTimes o.
Proof. split; reflexivity. Qed.

Lemma processingTimes_endTiming o st en :
  processingTimes (o_endTiming o st en "lipsync-processing") = processingTimes o ++ [en - st].
Proof.
  unfold processingTimes, o_endTiming. cbn [measurements].
  rewrite filter_app, map_app. reflexivity.
Qed.

Lemma benchmark_loop_spec endTime o its :
  o_frameCount (benchmark_loop endTime o its) =
    (o_frameCount o + List.length (iterations_run endTime its))%nat /\
  o_successCount (benchmark_loop endTime o its) =
    (o_successCount o + List.length (filter succeeded (iterations_run endTime its)))%nat /\
  o_errorCount (benchmark_loop endTime o its) =
    (o_errorCount o +
     List.length (filter (fun it => negb (succeeded it)) (iterations_run endTime its)))%nat /\
  o_startTime (benchmark_loop endTime o its) = o_startTime o /\
  processingTimes (benchmark_loop endTime o its) =
    processingTimes o ++ map (fun it => frameEnd it - frameStart it) (iterations_run endTime its).
Proof.
  revert o. induction its as [|it its IH]; intro o; simpl.
  - rewrite app_nil_r. repeat split; lia.
  - destruct (Qltb (loopCheck it) endTime); simpl.
    + set (o1 := if succeeded it then o_recordSuccess o else o_recordError o).
      destruct (IH (o_endTiming o1 (frameStart it) (frameEnd it) "lipsync-processing"))
        as [H1 [H2 [H3 [H4 H5]]]].
      rewrite H1, H2, H3, H4, H5, processingTimes_endTiming.
      assert (Hp : processingTimes o1 = processingTimes o) by (unfold o1; destruct (succeeded it); reflexivity).
      rewrite Hp, <- app_assoc.
      unfold o1. destruct (succeeded it); cbn; repeat split; lia.
    + rewrite app_nil_r. repeat split; lia.
Qed.

(** X17: [runPerformanceBenchmark] reports one frame per loop iteration run,
    as many errors plus successes as frames, a runtime measured from the
    construction of its monitor, and processing statistics over exactly
    the iteration durations [frameEnd - frameStart]; when no iteration
    runs, its [errorRate] is NaN. *)
Theorem runPerformanceBenchmark_stats (constructedAt startTime duration : Q)
    (its : list benchIteration) (memoryBaseline currentMemory : option Q) (statsAt recsAt : Q) :
  let run := iterations_run (startTime + duration) its in
  let stats := fst (runPerformanceBenchmark constructedAt startTime duration its
                      memoryBaseline currentMemory statsAt recsAt) in
  s_frameCount stats = List.length run /\
  (totalErrors stats + totalSuccesses stats)%nat = s_frameCount stats /\
  totalSuccesses stats = List.length (filter succeeded run) /\
  totalRuntime stats = statsAt - constructedAt /\
  s_averageProcessingTime stats = averageOf (map (fun it => frameEnd it - frameStart it) run) /\
  maxProcessingTime stats = maxOf (map (fun it => frameEnd it - frameStart it) run) /\
  minProcessingTime stats = minOf (map (fun it => frameEnd it - frameStart it) run) /\
  (run = [] -> s_errorRate stats = NaN).
Proof.
  intros run stats. unfold stats, runPerformanceBenchmark, o_getStats. cbn [fst].
  destruct (benchmark_loop_spec (startTime + duration) (optimizer_init constructedAt) its)
    as [H1 [H2 [H3 [H4 H5]]]].
  fold run in H1, H2, H3, H5.
  cbn [s_frameCount totalErrors totalSuccesses totalRuntime s_averageProcessingTime
       maxProcessingTime minProcessingTime s_errorRate].
  rewrite H1, H2, H3, H4, H5. cbn.
  split; [reflexivity|]. split; [rewrite Nat.add_comm; apply filter_negb_length|].
  split; [reflexivity|]. split; [reflexivity|]. split; [reflexivity|]. split; [reflexivity|].
  split; [reflexivity|].
  intro Hr. rewrite Hr. reflexivity.
Qed.

Lemma map_tl {A B} (f : A -> B) l : map f (tl l) = tl (map f l).
Proof. destruct l; reflexivity. Qed.

Lemma adaptive_run_window a ops X :
  map (fun e => (h_timestamp e, h_stats e)) (performanceHistory a) = ErrorHandlerMore.lastn 10 X ->
  map (fun e => (h_timestamp e, h_stats e)) (performanceHistory (adaptive_run a ops)) =
    ErrorHandlerMore.lastn 10 (X ++ snapshots ops).
Proof.
  revert a X. induction ops as [|op ops IH]; intros a X Ha.
  - simpl. rewrite app_nil_r. exact Ha.
  - destruct op as [stats now|].
    + change (snapshots (AnalyzePerformance stats now :: ops)) with ([(now, stats)] ++ snapshots ops).
      change (adaptive_run a (AnalyzePerformance stats now :: ops))
        with (adaptive_run (adaptive_step a (AnalyzePerformance stats now)) ops).
      rewrite app_assoc. apply IH.
      cbn [adaptive_step analyzePerformance performanceHistory].
      rewrite ErrorHandlerMoreFacts.lastn_snoc, <- Ha.
      rewrite <- (length_map (fun e => (h_timestamp e, h_stats e))), map_app.
      destruct (Nat.ltb 10 _); [rewrite map_tl, map_app|rewrite map_app]; reflexivity.
    + change (snapshots (AdaptConfiguration :: ops)) with (snapshots ops).
      change (adaptive_run a (AdaptConfiguration :: ops))
        with (adaptive_run (adaptive_step a AdaptConfiguration) ops).
      apply IH. cbn [adaptive_step]. unfold adaptConfiguration.
      destruct (shouldAdapt a); exact Ha.
Qed.

(** X18: after any run of [analyzePerformance] and [adaptConfiguration] from
    a fresh [AdaptivePerformanceOptimizer], its history holds exactly the
    last 10 snapshots given to [analyzePerformance], oldest first. *)
Theorem analyzePerformance_window (cfg : config) (ops : list adaptiveOp) :
  map (fun e => (h_timestamp e, h_stats e)) (performanceHistory (adaptive_run (adaptive_init cfg) ops))
    = ErrorHandlerMore.lastn 10 (snapshots ops).
Proof. apply (adaptive_run_window (adaptive_init cfg) ops []). reflexivity. Qed.

(** X19: after any run of [analyzePerformance] and [adaptConfiguration]
    from a fresh [AdaptivePerformanceOptimizer] with configuration [cfg]
    ([reset()] excluded: it reloads the shared configuration, see
    [SharedConfig]), the current configuration is the rung of the
    degradation ladder named by the adaptation counter: [cfg] itself at 0, then history, FFT size,
    threshold and blend count, lerp speeds, and the minimal configuration. *)
Theorem adaptive_run_ladder (cfg : config) (ops : list adaptiveOp) :
  currentConfig (adaptive_run (adaptive_init cfg) ops) =
    ladder (adaptationCount (adaptive_run (adaptive_init cfg) ops)) cfg.
Proof.
  unfold adaptive_run.
  apply (BlendingFacts.fold_left_inv (fun a => currentConfig a = ladder (adaptationCount a) cfg));
    [|reflexivity].
  intros a [stats now|] _ Ha; simpl; [exact Ha|].
  unfold adaptConfiguration. destruct (shouldAdapt a); simpl; [|exact Ha].
  rewrite Ha. reflexivity.
Qed.

Ltac no_costlier_tac :=
  unfold no_costlier; cbn [ladder degrade fftSize historySize smoothing ACTIVE_LERP_SPEED
    NEUTRAL_LERP_SPEED MIN_THRESHOLD MAX_BLEND_VISEMES EXPRESSION_BLEND_FACTOR];
  repeat rewrite andb_true_iff; repeat split; apply Qle_bool_iff;
  unfold Qmax'; BlendingFacts.qle_cases;
  repeat match goal with |- context [?x / 2] => change (x / 2) with (x * (1#2)) end;
  repeat match goal with H : context [?x / 2] |- _ => change (x / 2) with (x * (1#2)) in H end;
  lra.

(** X20: from any configuration with an FFT size of at least 512, a history
    of at least 4, a blend count of at least 1, a threshold in [0, 1/15],
    lerp speeds of at least 1/8 and an expression blend factor of at least
    1/10 (as [OPTIMAL_LIPSYNC_CONFIG] has), each adaptation step asks no
    more work than the configuration before it: no larger FFT, history,
    blend count, lerp speed or expression factor, and no lower threshold. *)
Theorem ladder_no_costlier (c : config) (k : nat)
    (Hfft : 512 <= fftSize c) (Hhist : 4 <= historySize c)
    (Hblend : 1 <= MAX_BLEND_VISEMES (smoothing c))
    (Hthr : 0 <= MIN_THRESHOLD (smoothing c) <= 1#15)
    (Hact : 1#8 <= ACTIVE_LERP_SPEED (smoothing c))
    (Hneu : 1#8 <= NEUTRAL_LERP_SPEED (smoothing c))
    (Hexp : 1#10 <= EXPRESSION_BLEND_FACTOR (smoothing c)) :
  no_costlier (ladder (S k) c) (ladder k c) = true.
Proof.
  destruct c as [f h [a n t b e]]. cbn in *.
  destruct k as [|[|[|[|[|k]]]]]; no_costlier_tac.
Qed.

Lemma ladder_no_costlier_witness :
  no_costlier (ladder 5 OPTIMAL_LIPSYNC_CONFIG) (ladder 4 OPTIMAL_LIPSYNC_CONFIG) = true.
Proof.
  apply ladder_no_costlier; cbn; try split; apply Qle_bool_iff; reflexivity.
Defined.

End OptimizationMoreFacts.

Module SharedConfigFacts.
Import Optimization OptimizationMore SharedConfig.

Lemma lookup_update {A} k k' (f : A -> A) l :
  lookup k (update k' f l) = if Nat.eqb k k' then option_map f (lookup k l) else lookup k l.
Proof.
  induction l as [|[k0 v] l IH]; simpl.
  - destruct (Nat.eqb k k'); reflexivity.
  - destruct (Nat.eqb_spec k' k0) as [E1|E1]; simpl; rewrite ?IH;
      destruct (Nat.eqb_spec k k0) as [E2|E2]; destruct (Nat.eqb_spec k k') as [E3|E3];
      subst; try congruence; reflexivity.
Qed.

Lemma lookup_update_some {A} k k' (f : A -> A) l v :
  lookup k l = Some v -> exists v', lookup k (update k' f l) = Some v' /\ (v' = v \/ v' = f v).
Proof.
  intro H. rewrite lookup_update, H. destruct (Nat.eqb k k'); simpl; eauto.
Qed.

(** The heap keeps [OPTIMAL_LIPSYNC_CONFIG] at 0, sharing the smoothing
    object at 0. *)
Definition heap_inv (h : heap) : Prop :=
  (1 <= next h)%nat /\
  (exists c0, lookup OPTIMAL_loc (cfgs h) = Some c0 /\ c_smoothing c0 = 0%nat) /\
  (exists sm, lookup 0 (smooths h) = Some sm).

(** Before the fifth adaptation the current configuration shares that
    smoothing object. *)
Definition state_inv (s : inst * heap) : Prop :=
  heap_inv (snd s) /\
  ((i_count (fst s) < 5)%nat ->
   exists c, lookup (i_config (fst s)) (cfgs (snd s)) = Some c /\ c_smoothing c = 0%nat).

Lemma module_heap_inv : heap_inv module_heap.
Proof.
  split; [cbn; lia|]. split; [eexists; split; reflexivity|eexists; reflexivity].
Qed.

Lemma new_H_inv br h : heap_inv h -> state_inv (new_H br h).
Proof.
  intros (Hn & (c0 & Hc0 & Hs0) & Hsm). unfold state_inv, heap_inv, new_H, detect_H.
  destruct br as [b|].
  - rewrite Hc0. cbn [fst snd]. split.
    + split; [cbn; lia|]. split.
      * exists c0. split; [|exact Hs0]. cbn [cfgs lookup].
        destruct (Nat.eqb_spec OPTIMAL_loc (next h)) as [E|E];
          [unfold OPTIMAL_loc in E; lia|exact Hc0].
      * exact Hsm.
    + intros _. cbn [cfgs lookup i_config]. rewrite Nat.eqb_refl.
      eexists; split; [reflexivity|exact Hs0].
  - cbn [fst snd]. split; [repeat split; eauto|].
    intros _. exists c0. split; [exact Hc0|exact Hs0].
Qed.

Lemma cfgs_update_inv h cur (f : cfgObj -> cfgObj) :
  (forall c, c_smoothing (f c) = c_smoothing c) ->
  heap_inv h -> heap_inv (with_cfgs h (update cur f (cfgs h))).
Proof.
  intros Hf (Hn & (c0 & Hc0 & Hs0) & Hsm). split; [exact Hn|]. split; [|exact Hsm].
  cbn [cfgs with_cfgs]. destruct (lookup_update_some OPTIMAL_loc cur f _ _ Hc0) as (v & Hv & [->| ->]).
  - eauto.
  - exists (f c0). rewrite Hf. eauto.
Qed.

Lemma map_smoothing_inv h cur f : heap_inv h -> heap_inv (map_smoothing_of cur h f).
Proof.
  intros (Hn & Hc & (sm & Hsm)). unfold map_smoothing_of.
  destruct (lookup cur (cfgs h)) as [c|]; [|split; [exact Hn|split; [exact Hc|eauto]]].
  split; [exact Hn|]. split; [exact Hc|]. cbn [smooths with_smooths].
  destruct (lookup_update_some 0 (c_smoothing c) f _ _ Hsm) as (v & Hv & _). eauto.
Qed.

Lemma step_inv br s op : state_inv s -> state_inv (inst_step br s op).
Proof.
  destruct s as [i h]. unfold state_inv. intros [Hh Hc]. cbn [fst snd] in Hh, Hc. destruct op as [stats now| |].
  - split; [exact Hh|]. cbn [inst_step fst snd analyze_H i_count i_config]. exact Hc.
  - cbn [inst_step]. unfold adapt_H. destruct (shouldAdapt_H i); cbn [negb];
      [|split; [exact Hh|exact Hc]].
    destruct (i_count i) as [|[|[|[|n]]]] eqn:Ecount.
    + split; [apply cfgs_update_inv; [reflexivity|exact Hh]|].
      cbn [fst snd i_config with_cfgs cfgs]. intros _.
      destruct (Hc ltac:(lia)) as (c & Hl & Hs).
      rewrite lookup_update, Nat.eqb_refl, Hl. eexists; split; [reflexivity|exact Hs].
    + split; [apply cfgs_update_inv; [reflexivity|exact Hh]|].
      cbn [fst snd i_config with_cfgs cfgs]. intros _.
      destruct (Hc ltac:(lia)) as (c & Hl & Hs).
      rewrite lookup_update, Nat.eqb_refl, Hl. eexists; split; [reflexivity|exact Hs].
    + split; [apply map_smoothing_inv, Hh|].
      cbn [fst snd i_config]. intros _. destruct (Hc ltac:(lia)) as (c & Hl & Hs).
      unfold map_smoothing_of. rewrite Hl. cbn [cfgs with_smooths]. eauto.
    + split; [apply map_smoothing_inv, Hh|].
      cbn [fst snd i_config]. intros _. destruct (Hc ltac:(lia)) as (c & Hl & Hs).
      unfold map_smoothing_of. rewrite Hl. cbn [cfgs with_smooths]. eauto.
    + destruct Hh as (Hn & (c0 & Hc0 & Hs0) & (sm & Hsm)).
      split; [|cbn [fst i_count]; lia].
      unfold heap_inv. split; [cbn [next snd]; lia|]. split.
      * exists c0. split; [|exact Hs0]. cbn [snd cfgs lookup].
        destruct (Nat.eqb_spec OPTIMAL_loc (S (next h))) as [E|E];
          [unfold OPTIMAL_loc in E; lia|exact Hc0].
      * exists sm. cbn [snd smooths lookup].
        destruct (Nat.eqb_spec 0 (next h)) as [E|E]; [lia|exact Hsm].
  - cbn [inst_step]. apply new_H_inv, Hh.
Qed.

Lemma run_from_module_inv userAgent ops : state_inv (run_from_module userAgent ops).
Proof.
  unfold run_from_module, inst_run.
  apply (BlendingFacts.fold_left_inv state_inv).
  - intros s op _ Hs. apply step_inv, Hs.
  - apply new_H_inv, module_heap_inv.
Qed.

(** X13: [detectBrowserAndOptimize()] returns [OPTIMAL_LIPSYNC_CONFIG] itself,
    and changes nothing, exactly when the user agent takes no branch;
    otherwise it returns a new object with the branch's FFT size and
    history and the two flags, the FFT size being 512 exactly for a user
    agent naming Safari but neither Chrome nor Firefox and the history 6
    exactly for one naming Firefox and not Chrome without Edge. Either way
    the object it returns shares the [smoothing] object of
    [OPTIMAL_LIPSYNC_CONFIG], whatever earlier adaptations did to it, and
    neither [OPTIMAL_LIPSYNC_CONFIG] nor any smoothing object is changed. *)
Theorem detectBrowserAndOptimize_fields (userAgent : string) (h : heap) (c0 : cfgObj)
    (H0 : lookup OPTIMAL_loc (cfgs h) = Some c0) (Hn : (1 <= next h)%nat) :
  let ua := ErrorHandler.toLowerCase userAgent in
  let r := detect_H (browser_branch userAgent) h in
  (fst r = OPTIMAL_loc <->
     (ErrorHandler.includes ua "chrome" = false \/ ErrorHandler.includes ua "edge" = true) /\
     ErrorHandler.includes ua "firefox" = false /\
     (ErrorHandler.includes ua "safari" = false \/ ErrorHandler.includes ua "chrome" = true) /\
     ErrorHandler.includes ua "edge" = false) /\
  (fst r = OPTIMAL_loc -> snd r = h) /\
  (fst r <> OPTIMAL_loc ->
     exists c, lookup (fst r) (cfgs (snd r)) = Some c /\ c_flags c <> None /\
       (c_fftSize c = 512 <->
          ErrorHandler.includes ua "safari" = true /\ ErrorHandler.includes ua "chrome" = false /\
          ErrorHandler.includes ua "firefox" = false) /\
       (c_historySize c = 6 <->
          ErrorHandler.includes ua "firefox" = true /\
          (ErrorHandler.includes ua "chrome" = false \/ ErrorHandler.includes ua "edge" = true))) /\
  (exists c, lookup (fst r) (cfgs (snd r)) = Some c /\ c_smoothing c = c_smoothing c0) /\
  lookup OPTIMAL_loc (cfgs (snd r)) = Some c0 /\ smooths (snd r) = smooths h.
Proof.
  intros ua r. unfold r, browser_branch. fold ua.
  assert (Hne : Nat.eqb OPTIMAL_loc (next h) = false)
    by (apply Nat.eqb_neq; unfold OPTIMAL_loc; lia).
  assert (Hne' : next h <> OPTIMAL_loc) by (unfold OPTIMAL_loc; lia).
  destruct (ErrorHandler.includes ua "chrome"), (ErrorHandler.includes ua "edge"),
    (ErrorHandler.includes ua "firefox"), (ErrorHandler.includes ua "safari");
    cbn [andb negb detect_H]; try rewrite H0; cbn [fst snd cfgs smooths lookup];
    rewrite ?Hne, ?Nat.eqb_refl;
    (split; [split; intro Hx; [try (exfalso; exact (Hne' Hx)) | ];
             repeat match goal with H : _ /\ _ |- _ => destruct H end;
             repeat match goal with H : _ \/ _ |- _ => destruct H end;
             try discriminate; try reflexivity; try tauto|]);
    (split; [intro Hx; try (exfalso; exact (Hne' Hx)); reflexivity|]);
    (split; [intro Hx; try (exfalso; exact (Hx eq_refl));
             eexists; (split; [reflexivity|]); cbn [c_flags c_fftSize c_historySize
               BROWSER_OPTIMIZATIONS bo_fftSize bo_historySize];
             (split; [discriminate|]);
             split; split; intro Hy;
             repeat match goal with H : _ /\ _ |- _ => destruct H end;
             repeat match goal with H : _ \/ _ |- _ => destruct H end;
             try discriminate; try reflexivity; try tauto|]);
    (split; [eexists; split; [first [exact H0|reflexivity]|reflexivity]|]);
    split; first [exact H0|reflexivity].
Qed.

Lemma detectBrowserAndOptimize_fields_witness :
  lookup OPTIMAL_loc (cfgs (snd (detect_H (browser_branch "Mozilla/5.0 Safari/605.1.15") module_heap)))
    = lookup OPTIMAL_loc (cfgs module_heap).
Proof.
  exact (proj1 (proj2 (proj2 (proj2 (proj2 (detectBrowserAndOptimize_fields
    "Mozilla/5.0 Safari/605.1.15" module_heap _ eq_refl (le_n 1))))))).
Defined.

(** X21: [AdaptivePerformanceOptimizer] and [detectBrowserAndOptimize] copy
    [OPTIMAL_LIPSYNC_CONFIG] shallowly, so until its fifth adaptation an
    optimiser's current configuration shares its [smoothing] object with
    [OPTIMAL_LIPSYNC_CONFIG]; after three adaptations and a [reset()] the
    module's [OPTIMAL_LIPSYNC_CONFIG.smoothing] keeps the raised threshold
    0.03 and at most 2 blended visemes. *)
Theorem optimizer_shares_OPTIMAL_smoothing (userAgent : string) :
  (forall ops, (i_count (fst (run_from_module userAgent ops)) < 5)%nat ->
     exists c c0,
       resolve (snd (run_from_module userAgent ops)) (i_config (fst (run_from_module userAgent ops)))
         = Some c /\
       resolve (snd (run_from_module userAgent ops)) OPTIMAL_loc = Some c0 /\
       smoothing c = smoothing c0) /\
  (exists c0, resolve (snd (run_from_module userAgent adapt3_then_reset)) OPTIMAL_loc = Some c0 /\
     MIN_THRESHOLD (smoothing c0) == 3#100 /\ MAX_BLEND_VISEMES (smoothing c0) == 2).
Proof.
  split.
  - intros ops Hlt.
    destruct (run_from_module_inv userAgent ops) as [(Hn & (c0 & Hc0 & Hs0) & (sm & Hsm)) Hc].
    destruct (Hc Hlt) as (c & Hl & Hs).
    unfold resolve. rewrite Hl, Hc0, Hs, Hs0, Hsm.
    do 2 eexists. split; [reflexivity|]. split; [reflexivity|reflexivity].
  - unfold run_from_module.
    destruct (browser_branch userAgent) as [b|];
      [destruct b|]; eexists; (split; [vm_compute; reflexivity|]); split; vm_compute; reflexivity.
Qed.

End SharedConfigFacts.
